(** * Input validation utilities (src/utils/validation.ts)

    A shallow embedding of the validator library and of the part of the
    JavaScript runtime it runs on: values of type [unknown], strings as
    sequences of UTF-16 code units, numbers as IEEE 754 binary64 floats,
    completions (normal return or throw) and [try]/[catch]. *)

From Stdlib Require Import ZArith NArith List String Ascii Bool Lia.
From Stdlib Require Import Floats Uint63 DecimalString.
Import ListNotations.

(* ------------------------------------------------------------------ *)
(** ** JavaScript strings *)

(** A string is a sequence of UTF-16 code units; [length] counts them. *)
Definition code_unit := N.
Definition jsstring := list code_unit.

(** A source literal.  Every literal of validation.ts is ASCII, one code
    unit per character. *)
Definition str (s : string) : jsstring :=
  List.map N_of_ascii (list_ascii_of_string s).

Fixpoint jsstring_eqb (a b : jsstring) : bool :=
  match a, b with
  | [], [] => true
  | x :: a', y :: b' => N.eqb x y && jsstring_eqb a' b'
  | _, _ => false
  end.

(** WhiteSpace and LineTerminator code points (ECMA-262 12.2, 12.3): what
    [String.prototype.trim] strips and what [\s] matches. *)
Definition isWhiteSpaceOrLineTerminator (c : code_unit) : bool :=
  let among := existsb (N.eqb c) in
  among [9; 10; 11; 12; 13; 32; 160; 5760; 8232; 8233; 8239; 8287; 12288;
         65279]%N
  || (N.leb 8192 c && N.leb c 8202).

Fixpoint trimStart (s : jsstring) : jsstring :=
  match s with
  | c :: s' => if isWhiteSpaceOrLineTerminator c then trimStart s' else s
  | [] => []
  end.

Definition trimEnd (s : jsstring) : jsstring := rev (trimStart (rev s)).

(** [String.prototype.trim]. *)
Definition trim (s : jsstring) : jsstring := trimEnd (trimStart s).

(** [Array.prototype.join] on an array of strings. *)
Fixpoint join (sep : jsstring) (xs : list jsstring) : jsstring :=
  match xs with
  | [] => []
  | [x] => x
  | x :: rest => x ++ sep ++ join sep rest
  end.

(** [Array.prototype.includes] on an array of strings (SameValueZero on two
    strings compares their code units). *)
Definition includes (xs : list jsstring) (x : jsstring) : bool :=
  existsb (jsstring_eqb x) xs.

(* ------------------------------------------------------------------ *)
(** ** JavaScript values *)

(** A value of type [unknown].  Objects and functions are opaque: the
    validators only look at the type tag of their input. *)
Inductive JsValue : Type :=
| JUndefined
| JNull
| JBoolean (b : bool)
| JNumber (n : float)
| JString (s : jsstring)
| JBigInt (z : Z)
| JSymbol (id : positive)
| JObject (ref : positive)
| JFunction (ref : positive).

Inductive TypeTag : Type :=
| TagUndefined | TagObject | TagBoolean | TagNumber | TagString
| TagBigInt | TagSymbol | TagFunction.

(** The [typeof] operator. *)
Definition typeof (v : JsValue) : TypeTag :=
  match v with
  | JUndefined => TagUndefined
  | JNull => TagObject
  | JBoolean _ => TagBoolean
  | JNumber _ => TagNumber
  | JString _ => TagString
  | JBigInt _ => TagBigInt
  | JSymbol _ => TagSymbol
  | JObject _ => TagObject
  | JFunction _ => TagFunction
  end.

(** A completion: a call returns normally or throws a value. *)
Inductive Completion (A : Type) : Type :=
| Normal (a : A)
| Throw (exn : JsValue).
Arguments Normal {A} a.
Arguments Throw {A} exn.

(** [try { body } catch { handler }] *)
Definition try_catch {A} (body : Completion A) (handler : Completion A)
  : Completion A :=
  match body with
  | Normal a => Normal a
  | Throw _ => handler
  end.

(** A parameter with a default value: the default is used when the argument
    is left out. *)
Definition orDefault (arg : option jsstring) (dflt : jsstring) : jsstring :=
  match arg with
  | Some s => s
  | None => dflt
  end.

(* ------------------------------------------------------------------ *)
(** ** JavaScript numbers *)

(** The length of a string as a number. *)
Definition String_length (s : jsstring) : float :=
  PrimFloat.of_uint63 (Uint63.of_Z (Z.of_nat (List.length s))).

(** [Number.isFinite] on a number. *)
Definition Number_isFinite (x : float) : bool := PrimFloat.is_finite x.

(** The integer a binary64 value denotes, when it denotes one. *)
Definition SF_integer (x : spec_float) : option Z :=
  match x with
  | S754_zero _ => Some 0%Z
  | S754_finite s m e =>
      let mag :=
        match e with
        | Z0 => Some (Zpos m)
        | Zpos k => Some (Zpos m * 2 ^ Zpos k)%Z
        | Zneg k =>
            if (Zpos m mod 2 ^ Zpos k =? 0)%Z
            then Some (Zpos m / 2 ^ Zpos k)%Z else None
        end in
      option_map (fun z => if s then (- z)%Z else z) mag
  | S754_infinity _ | S754_nan => None
  end.

Definition float_integer (x : float) : option Z := SF_integer (Prim2SF x).

(** [Number.isInteger] on a number. *)
Definition Number_isInteger (x : float) : bool :=
  match float_integer x with
  | Some _ => true
  | None => false
  end.

Definition decimal (z : Z) : jsstring :=
  match z with
  | Z0 => str "0"
  | Zpos p => str (NilZero.string_of_uint (Pos.to_uint p))
  | Zneg p => str "-" ++ str (NilZero.string_of_uint (Pos.to_uint p))
  end.

(** [Number::toString] in radix 10, as a template literal applies it.  NaN,
    the infinities, the zeros and the safe integers (magnitude at most 2^53,
    where the shortest digit string that reads back is the decimal
    expansion) are written out; for every other number the shortest
    round-trip digits are the host's, [shortestDigits]. *)
Section NumberFormatting.
Variable shortestDigits : float -> jsstring.

Definition Number_toString (x : float) : jsstring :=
  if PrimFloat.is_nan x then str "NaN"
  else if PrimFloat.is_infinity x then
    (if (x <? 0)%float then str "-Infinity" else str "Infinity")
  else
    match float_integer x with
    | Some z => if (Z.abs z <=? 2 ^ 53)%Z then decimal z else shortestDigits x
    | None => shortestDigits x
    end.

End NumberFormatting.

(* ------------------------------------------------------------------ *)
(** ** Regular expressions *)

(** What the validators use of a [RegExp]: its [test] method. *)
Record RegExp : Type := { RegExp_test : jsstring -> bool }.

(** Regular expressions over code units, matched by derivatives. *)
Inductive regex : Type :=
| RNever
| REmpty
| RClass (p : code_unit -> bool)
| RSeq (r1 r2 : regex)
| RAlt (r1 r2 : regex)
| RStar (r : regex).

Definition RPlus (r : regex) : regex := RSeq r (RStar r).

Fixpoint nullable (r : regex) : bool :=
  match r with
  | RNever => false
  | REmpty => true
  | RClass _ => false
  | RSeq r1 r2 => nullable r1 && nullable r2
  | RAlt r1 r2 => nullable r1 || nullable r2
  | RStar _ => true
  end.

Fixpoint derive (c : code_unit) (r : regex) : regex :=
  match r with
  | RNever => RNever
  | REmpty => RNever
  | RClass p => if p c then REmpty else RNever
  | RSeq r1 r2 =>
      if nullable r1
      then RAlt (RSeq (derive c r1) r2) (derive c r2)
      else RSeq (derive c r1) r2
  | RAlt r1 r2 => RAlt (derive c r1) (derive c r2)
  | RStar r1 => RSeq (derive c r1) (RStar r1)
  end.

(** The whole string is in the language of [r]. *)
Fixpoint matches (r : regex) (s : jsstring) : bool :=
  match s with
  | [] => nullable r
  | c :: s' => matches (derive c r) s'
  end.

Definition char_at : code_unit := 64%N.
Definition char_dot : code_unit := 46%N.
Definition char_dquote : code_unit := 34%N.

(** The class [[^\s@]]. *)
Definition notSpaceNorAt (c : code_unit) : bool :=
  negb (isWhiteSpaceOrLineTerminator c || N.eqb c char_at).

(** [/^[^\s@]+@[^\s@]+\.[^\s@]+$/]: anchored at both ends and without
    flags, so [test] holds when the whole string matches the body. *)
Definition emailPattern : RegExp :=
  {| RegExp_test :=
       matches
         (RSeq (RPlus (RClass notSpaceNorAt))
            (RSeq (RClass (N.eqb char_at))
               (RSeq (RPlus (RClass notSpaceNorAt))
                  (RSeq (RClass (N.eqb char_dot))
                     (RPlus (RClass notSpaceNorAt)))))) |}.

(* ------------------------------------------------------------------ *)
(** ** The validators *)

(** [ValidationResult<T>]: [{ valid: true; value }] or
    [{ valid: false; error }]. *)
Inductive ValidationResult (T : Type) : Type :=
| Valid (value : T)
| Invalid (error : jsstring).
Arguments Valid {T} value.
Arguments Invalid {T} error.

(** Validates that a string is not empty (after trimming). *)
Definition validateNonEmpty (value : JsValue) (fieldName : option jsstring)
  : ValidationResult jsstring :=
  let fieldName := orDefault fieldName (str "Field") in
  match value with
  | JString value =>
      let trimmed := trim value in
      if PrimFloat.eqb (String_length trimmed) 0
      then Invalid (fieldName ++ str " cannot be empty")
      else Valid trimmed
  | _ => Invalid (fieldName ++ str " must be a string")
  end.

(** Validates that a string matches a regular expression pattern. *)
Definition validatePattern (value : JsValue) (pattern : RegExp)
  (errorMessage : jsstring) : ValidationResult jsstring :=
  match value with
  | JString value =>
      if negb (RegExp_test pattern value)
      then Invalid errorMessage
      else Valid value
  | _ => Invalid errorMessage
  end.

(** Validates an email address format (basic pattern, not RFC-compliant). *)
Definition validateEmail (value : JsValue) (fieldName : option jsstring)
  : ValidationResult jsstring :=
  let fieldName := orDefault fieldName (str "Email") in
  validatePattern value emailPattern
    (fieldName ++ str " must be a valid email address").

(** Validates that a value is one of the allowed options. *)
Definition validateOneOf (value : JsValue) (options : list jsstring)
  (fieldName : option jsstring) : ValidationResult jsstring :=
  let fieldName := orDefault fieldName (str "Field") in
  match value with
  | JString value =>
      if negb (includes options value) then
        let optionsList :=
          join (str ", ")
            (List.map (fun opt => [char_dquote] ++ opt ++ [char_dquote])
               options) in
        Invalid (fieldName ++ str " must be one of: " ++ optionsList)
      else Valid value
  | _ => Invalid (fieldName ++ str " must be a string")
  end.

Section Validators.

(** The host's part of [Number::toString] (see [Number_toString]). *)
Variable shortestDigits : float -> jsstring.

(** The host's [new URL(input)]: the new object, or a thrown [TypeError]
    when the input does not parse as an absolute URL. *)
Variable URL_new : jsstring -> Completion JsValue.

(** Validates that a string has a minimum length. *)
Definition validateMinLength (value : JsValue) (minLength : float)
  (fieldName : option jsstring) : ValidationResult jsstring :=
  let fieldName := orDefault fieldName (str "Field") in
  match value with
  | JString value =>
      if (String_length value <? minLength)%float then
        Invalid (fieldName ++ str " must be at least "
                 ++ Number_toString shortestDigits minLength
                 ++ str " character"
                 ++ (if (minLength =? 1)%float then str "" else str "s"))
      else Valid value
  | _ => Invalid (fieldName ++ str " must be a string")
  end.

(** Validates that a string has a maximum length. *)
Definition validateMaxLength (value : JsValue) (maxLength : float)
  (fieldName : option jsstring) : ValidationResult jsstring :=
  let fieldName := orDefault fieldName (str "Field") in
  match value with
  | JString value =>
      if (maxLength <? String_length value)%float then
        Invalid (fieldName ++ str " must be at most "
                 ++ Number_toString shortestDigits maxLength
                 ++ str " character"
                 ++ (if (maxLength =? 1)%float then str "" else str "s"))
      else Valid value
  | _ => Invalid (fieldName ++ str " must be a string")
  end.

(** Validates that a string is within a length range. *)
Definition validateLength (value : JsValue) (minLength maxLength : float)
  (fieldName : option jsstring) : ValidationResult jsstring :=
  let fieldName := orDefault fieldName (str "Field") in
  let minResult := validateMinLength value minLength (Some fieldName) in
  match minResult with
  | Invalid error => Invalid error
  | Valid minValue =>
      let maxResult :=
        validateMaxLength (JString minValue) maxLength (Some fieldName) in
      maxResult
  end.

(** Validates a URL format (basic pattern). *)
Definition validateUrl (value : JsValue) (fieldName : option jsstring)
  : Completion (ValidationResult jsstring) :=
  let fieldName := orDefault fieldName (str "URL") in
  try_catch
    (match value with
     | JString value =>
         match URL_new value with
         | Normal _ => Normal (Valid value)
         | Throw exn => Throw exn
         end
     | _ => Normal (Invalid (fieldName ++ str " must be a string"))
     end)
    (Normal (Invalid (fieldName ++ str " must be a valid URL"))).

(** Validates that a number is within a range. *)
Definition validateNumberRange (value : JsValue) (min max : float)
  (fieldName : option jsstring) : ValidationResult float :=
  let fieldName := orDefault fieldName (str "Number") in
  match value with
  | JNumber value =>
      if negb (Number_isFinite value) then
        Invalid (fieldName ++ str " must be a finite number")
      else if (value <? min)%float || (max <? value)%float then
        Invalid (fieldName ++ str " must be between "
                 ++ Number_toString shortestDigits min ++ str " and "
                 ++ Number_toString shortestDigits max)
      else Valid value
  | _ => Invalid (fieldName ++ str " must be a finite number")
  end.

End Validators.

(** Validates that a value is a positive integer. *)
Definition validatePositiveInteger (value : JsValue)
  (fieldName : option jsstring) : ValidationResult float :=
  let fieldName := orDefault fieldName (str "Number") in
  match value with
  | JNumber value =>
      if negb (Number_isInteger value) then
        Invalid (fieldName ++ str " must be an integer")
      else if (value <=? 0)%float then
        Invalid (fieldName ++ str " must be a positive integer")
      else Valid value
  | _ => Invalid (fieldName ++ str " must be an integer")
  end.

(* ------------------------------------------------------------------ *)
(** ** The sequencer *)

(** A validator handed to [validateAll] is any function
    [(val: unknown) => ValidationResult]: it may read and change the state
    of the program, [World], and it may throw. *)
Definition Eff (World A : Type) : Type := World -> Completion A * World.

Definition ret {World A} (a : A) : Eff World A := fun w => (Normal a, w).

Definition bind {World A B} (m : Eff World A) (k : A -> Eff World B)
  : Eff World B :=
  fun w =>
    match m w with
    | (Normal a, w') => k a w'
    | (Throw exn, w') => (Throw exn, w')
    end.

Declare Scope eff_scope.
Delimit Scope eff_scope with eff.
Notation "x <- m ;; k" := (bind m (fun x => k))
  (at level 61, m at next level, right associativity) : eff_scope.

Definition Validator (World : Type) : Type :=
  JsValue -> Eff World (ValidationResult JsValue).

(** How the [for ... of] loop of [validateAll] ends: by its [return], or by
    running out of validators with the working value it has then. *)
Inductive LoopExit : Type :=
| Returned (result : ValidationResult JsValue)
| Completed (value : JsValue).

(** [validators[i]]: [undefined] outside the array. *)
Definition at_index {A} (xs : list A) (i : Z) : option A :=
  if (i <? 0)%Z then None else nth_error xs (Z.to_nat i).

Section Sequencer.
Variable World : Type.

Fixpoint forOf (validators : list (Validator World)) (value : JsValue)
  : Eff World LoopExit :=
  match validators with
  | [] => ret (Completed value)
  | validator :: rest =>
      (result <- validator value ;;
       match result with
       | Invalid error => ret (Returned (Invalid error))
       | Valid value' => forOf rest value'
       end)%eff
  end.

(** Validates multiple rules in sequence, returning the first error. *)
Definition validateAll (value : JsValue) (validators : list (Validator World))
  : Eff World (ValidationResult JsValue) :=
  (exit <- forOf validators value ;;
   match exit with
   | Returned result => ret result
   | Completed value =>
       lastResult <-
         match at_index validators (Z.of_nat (List.length validators) - 1) with
         | Some validator => (r <- validator value ;; ret (Some r))
         | None => ret None
         end ;;
       match lastResult with
       | Some (Valid value') => ret (Valid value')
       | _ => ret (Valid value)
       end
   end)%eff.

(** The validators of [validators], applied in order from [value], each
    result's value handed to the next: the working value and the state
    reached when every one of them returns [Valid], [None] as soon as one
    returns [Invalid] or throws. *)
Fixpoint thread (validators : list (Validator World)) (value : JsValue)
  (w : World) : option (JsValue * World) :=
  match validators with
  | [] => Some (value, w)
  | validator :: rest =>
      match validator value w with
      | (Normal (Valid value'), w') => thread rest value' w'
      | _ => None
      end
  end.

End Sequencer.

Arguments forOf {World} validators value _.
Arguments validateAll {World} value validators _.
Arguments thread {World} validators value w.

(** A validator of the library as an element of [validators]: a pure
    function, which leaves the state alone and does not throw. *)
Definition pureValidator {World} (f : JsValue -> ValidationResult jsstring)
  : Validator World :=
  fun value =>
    ret (match f value with
         | Valid s => Valid (JString s)
         | Invalid error => Invalid error
         end).

(* ------------------------------------------------------------------ *)
(** ** Validators and hosts for running examples *)

(** [(v) => f(typeof v === "string" ? v + suffix : v)]: a validator that
    changes the value it hands on, and does so again when it is called
    again on its own output. *)
Definition appendThen (suffix : jsstring)
  (f : JsValue -> ValidationResult jsstring) (value : JsValue)
  : ValidationResult jsstring :=
  match value with
  | JString s => f (JString (s ++ suffix))
  | _ => f value
  end.

(** A validator that notes its call in the state, a list of the calls made
    so far (latest first), and then runs the pure validator [f]. *)
Definition recording (id : nat) (f : JsValue -> ValidationResult jsstring)
  : Validator (list nat) :=
  fun value calls =>
    match pureValidator f value calls with
    | (r, calls') => (r, id :: calls')
    end.

(** A host whose digit routine is never reached on safe integers. *)
Definition exampleDigits : float -> jsstring := fun _ => str "?".

Definition inRange (lo hi : N) (c : code_unit) : bool :=
  N.leb lo c && N.leb c hi.

Definition isAsciiAlpha (c : code_unit) : bool :=
  inRange 65 90 c || inRange 97 122 c.

Definition isSchemeChar (c : code_unit) : bool :=
  isAsciiAlpha c || inRange 48 57 c
  || existsb (N.eqb c) [43; 45; 46]%N.

(** A stand-in for the host's [new URL] in examples: it accepts a string
    that starts with a scheme, [[A-Za-z][A-Za-z0-9+.-]*:], and throws on
    any other. *)
Definition exampleURL (input : jsstring) : Completion JsValue :=
  if matches
       (RSeq (RClass isAsciiAlpha)
          (RSeq (RStar (RClass isSchemeChar))
             (RSeq (RClass (N.eqb 58)) (RStar (RClass (fun _ => true))))))
       input
  then Normal (JObject 1)
  else Throw (JObject 2).

(* ------------------------------------------------------------------ *)
(** ** Reading the specification *)

(** The type-error message of a validator called with field name
    [fieldName]. *)
Definition typeErrorMessage (fieldName : jsstring) : jsstring :=
  fieldName ++ str " must be a string".

(** The length-range check as the specification words it: the min-length
    validator, then, only when that is [Valid], the max-length validator on
    its value; the first failure is the result. *)
Definition minLengthThenMaxLength (shortestDigits : float -> jsstring)
  (value : JsValue) (min max : float) (fieldName : option jsstring)
  : ValidationResult jsstring :=
  match validateMinLength shortestDigits value min fieldName with
  | Invalid error => Invalid error
  | Valid kept => validateMaxLength shortestDigits (JString kept) max fieldName
  end.

(* ------------------------------------------------------------------ *)
(** ** The language of a regular expression *)

(** The strings a regular expression matches as a whole. *)
Inductive lang : regex -> jsstring -> Prop :=
| lang_empty : lang REmpty []
| lang_class p c : p c = true -> lang (RClass p) [c]
| lang_seq r1 r2 s1 s2 :
    lang r1 s1 -> lang r2 s2 -> lang (RSeq r1 r2) (s1 ++ s2)
| lang_alt_l r1 r2 s : lang r1 s -> lang (RAlt r1 r2) s
| lang_alt_r r1 r2 s : lang r2 s -> lang (RAlt r1 r2) s
| lang_star_nil r : lang (RStar r) []
| lang_star_cons r s1 s2 :
    lang r s1 -> lang (RStar r) s2 -> lang (RStar r) (s1 ++ s2).

(* ------------------------------------------------------------------ *)
(** ** More validators for running examples *)

(** [(v) => { throw exn; }] *)
Definition throwing {World} (exn : JsValue) : Validator World :=
  fun _ w => (Throw exn, w).

(** A validator with a flag of its own, the state: it accepts any value on
    its first call and throws on every later one. *)
Definition acceptOnce (exn : JsValue) : Validator bool :=
  fun value called =>
    if called then (Throw exn, true) else (Normal (Valid value), true).

(** The fold the sequencer's documentation describes, over pure
    validators: the first [Invalid] result, or [Valid] with the value the
    last validator returned (the input when there is none). *)
Fixpoint firstFailure (validators : list (JsValue -> ValidationResult jsstring))
  (value : JsValue) : ValidationResult JsValue :=
  match validators with
  | [] => Valid value
  | validator :: rest =>
      match validator value with
      | Invalid error => Invalid error
      | Valid kept => firstFailure rest (JString kept)
      end
  end.

(* ------------------------------------------------------------------ *)
(** * Properties *)

(** ** Strings and type tags *)

Lemma jsstring_eqb_refl (s : jsstring) : jsstring_eqb s s = true.
Proof.
  induction s as [|c s IH]; simpl; [reflexivity|].
  rewrite N.eqb_refl, IH. reflexivity.
Qed.

Lemma jsstring_eqb_eq (a b : jsstring) : jsstring_eqb a b = true <-> a = b.
Proof.
  split.
  - revert b. induction a as [|x a IH]; intros [|y b] H; simpl in H;
      try discriminate H; [reflexivity|].
    apply andb_true_iff in H. destruct H as [Hxy Hab].
    apply N.eqb_eq in Hxy. apply IH in Hab. congruence.
  - intros ->. apply jsstring_eqb_refl.
Qed.

(** Two messages built on the same field name differ when their tails do. *)
Lemma message_tail_differs (fieldName t1 t2 : jsstring) :
  jsstring_eqb t1 t2 = false -> fieldName ++ t1 <> fieldName ++ t2.
Proof.
  intros Hne Heq. apply app_inv_head in Heq.
  apply jsstring_eqb_eq in Heq. congruence.
Qed.

(** A message that ends in another code unit than [t] does is not
    [fieldName ++ t], whatever the field name. *)
Lemma message_end_differs (msg t : jsstring) (c d : code_unit) :
  N.eqb c d = false ->
  forall m' t' fieldName, msg = m' ++ [c] -> t = t' ++ [d] ->
  msg <> fieldName ++ t.
Proof.
  intros Hcd m' t' fieldName -> -> Heq.
  rewrite app_assoc in Heq. apply app_inj_tail in Heq.
  destruct Heq as [_ Heq]. subst d. rewrite N.eqb_refl in Hcd. discriminate.
Qed.

(** ** Non-string input *)

Section NonStringInput.
Variable shortestDigits : float -> jsstring.
Variable URL_new : jsstring -> Completion JsValue.
Variable value : JsValue.
Hypothesis not_a_string : typeof value <> TagString.

Lemma validateNonEmpty_non_string fieldName :
  validateNonEmpty value fieldName
  = Invalid (typeErrorMessage (orDefault fieldName (str "Field"))).
Proof. destruct value; try reflexivity. now elim not_a_string. Qed.

Lemma validatePattern_non_string pattern errorMessage :
  validatePattern value pattern errorMessage = Invalid errorMessage.
Proof. destruct value; try reflexivity. now elim not_a_string. Qed.

Lemma validateMinLength_non_string minLength fieldName :
  validateMinLength shortestDigits value minLength fieldName
  = Invalid (typeErrorMessage (orDefault fieldName (str "Field"))).
Proof. destruct value; try reflexivity. now elim not_a_string. Qed.

Lemma validateMaxLength_non_string maxLength fieldName :
  validateMaxLength shortestDigits value maxLength fieldName
  = Invalid (typeErrorMessage (orDefault fieldName (str "Field"))).
Proof. destruct value; try reflexivity. now elim not_a_string. Qed.

Lemma validateLength_non_string minLength maxLength fieldName :
  validateLength shortestDigits value minLength maxLength fieldName
  = Invalid (typeErrorMessage (orDefault fieldName (str "Field"))).
Proof.
  unfold validateLength. rewrite validateMinLength_non_string. reflexivity.
Qed.

Lemma validateEmail_non_string fieldName :
  validateEmail value fieldName
  = Invalid (orDefault fieldName (str "Email")
             ++ str " must be a valid email address").
Proof. unfold validateEmail. apply validatePattern_non_string. Qed.

Lemma validateUrl_non_string fieldName :
  validateUrl URL_new value fieldName
  = Normal (Invalid (typeErrorMessage (orDefault fieldName (str "URL")))).
Proof. destruct value; try reflexivity. now elim not_a_string. Qed.

Lemma validateOneOf_non_string options fieldName :
  validateOneOf value options fieldName
  = Invalid (typeErrorMessage (orDefault fieldName (str "Field"))).
Proof. destruct value; try reflexivity. now elim not_a_string. Qed.

End NonStringInput.

(** C1, as the code has it.  On an input that is not a string every string
    validator returns [Invalid] and none throws ([validateUrl], the one
    with a [try], completes normally).  The error is the type-error
    message [fieldName ++ " must be a string"] for [validateNonEmpty],
    [validateMinLength], [validateMaxLength], [validateLength],
    [validateUrl] and [validateOneOf]; [validatePattern] returns the
    message it was given, and [validateEmail] its email-format message. *)
Theorem string_validators_reject_non_strings
  (shortestDigits : float -> jsstring)
  (URL_new : jsstring -> Completion JsValue) (value : JsValue) :
  typeof value <> TagString ->
  (forall fieldName,
      validateNonEmpty value fieldName
      = Invalid (typeErrorMessage (orDefault fieldName (str "Field"))))
  /\ (forall pattern errorMessage,
      validatePattern value pattern errorMessage = Invalid errorMessage)
  /\ (forall minLength fieldName,
      validateMinLength shortestDigits value minLength fieldName
      = Invalid (typeErrorMessage (orDefault fieldName (str "Field"))))
  /\ (forall maxLength fieldName,
      validateMaxLength shortestDigits value maxLength fieldName
      = Invalid (typeErrorMessage (orDefault fieldName (str "Field"))))
  /\ (forall minLength maxLength fieldName,
      validateLength shortestDigits value minLength maxLength fieldName
      = Invalid (typeErrorMessage (orDefault fieldName (str "Field"))))
  /\ (forall fieldName,
      validateEmail value fieldName
      = Invalid (orDefault fieldName (str "Email")
                 ++ str " must be a valid email address"))
  /\ (forall fieldName,
      validateUrl URL_new value fieldName
      = Normal (Invalid (typeErrorMessage (orDefault fieldName (str "URL")))))
  /\ (forall options fieldName,
      validateOneOf value options fieldName
      = Invalid (typeErrorMessage (orDefault fieldName (str "Field")))).
Proof.
  intros Hty. repeat split; intros.
  - now apply validateNonEmpty_non_string.
  - now apply validatePattern_non_string.
  - now apply validateMinLength_non_string.
  - now apply validateMaxLength_non_string.
  - now apply validateLength_non_string.
  - now apply validateEmail_non_string.
  - now apply validateUrl_non_string.
  - now apply validateOneOf_non_string.
Qed.

(** The number 123 is rejected by each of them, with these messages. *)
Lemma string_validators_reject_123 :
  typeof (JNumber 123) <> TagString
  /\ validateNonEmpty (JNumber 123) None = Invalid (str "Field must be a string")
  /\ validateUrl exampleURL (JNumber 123) None
     = Normal (Invalid (str "URL must be a string"))
  /\ validateEmail (JNumber 123) None
     = Invalid (str "Email must be a valid email address").
Proof.
  assert (H : typeof (JNumber 123) <> TagString) by discriminate.
  pose proof (string_validators_reject_non_strings exampleDigits exampleURL
                (JNumber 123) H)
    as (HnonEmpty & _ & _ & _ & _ & Hemail & Hurl & _).
  split; [exact H|].
  split; [exact (HnonEmpty None)|].
  split; [exact (Hurl None)|exact (Hemail None)].
Defined.

(** C1 as stated fails: on the number 123 [validateEmail] returns its
    email-format message and [validatePattern] the caller's message;
    neither is a type-error message, for any field name. *)
Lemma validateEmail_non_string_not_type_error :
  typeof (JNumber 123) <> TagString
  /\ validateEmail (JNumber 123) None
     = Invalid (str "Email must be a valid email address")
  /\ validatePattern (JNumber 123) emailPattern (str "Invalid format")
     = Invalid (str "Invalid format")
  /\ (forall fieldName,
       str "Email must be a valid email address" <> typeErrorMessage fieldName)
  /\ (forall fieldName, str "Invalid format" <> typeErrorMessage fieldName).
Proof.
  split; [discriminate|].
  do 2 (split; [reflexivity|]).
  split.
  - intros fieldName.
    apply (message_end_differs _ _ 115%N 103%N eq_refl
             (str "Email must be a valid email addres") (str " must be a strin"));
      reflexivity.
  - intros fieldName.
    apply (message_end_differs _ _ 116%N 103%N eq_refl
             (str "Invalid forma") (str " must be a strin"));
      reflexivity.
Qed.

(** ** URLs *)

(** C7.  [validateUrl] returns the string-type message on an input that is
    not a string, the URL-format message on a string the host's [new URL]
    throws on, and [Valid] with the original string on one it accepts; the
    two messages differ for every field name, and the call completes
    normally in each case. *)
Theorem validateUrl_cases (URL_new : jsstring -> Completion JsValue)
  (value : JsValue) (fieldName : option jsstring) :
  let field := orDefault fieldName (str "URL") in
  (typeof value <> TagString ->
   validateUrl URL_new value fieldName
   = Normal (Invalid (field ++ str " must be a string")))
  /\ (forall s exn, value = JString s -> URL_new s = Throw exn ->
      validateUrl URL_new value fieldName
      = Normal (Invalid (field ++ str " must be a valid URL")))
  /\ (forall s url, value = JString s -> URL_new s = Normal url ->
      validateUrl URL_new value fieldName = Normal (Valid s))
  /\ field ++ str " must be a string" <> field ++ str " must be a valid URL".
Proof.
  intros field. split; [|split; [|split]].
  - intros Hty. now apply validateUrl_non_string.
  - intros s exn -> Hthrow. unfold validateUrl. rewrite Hthrow. reflexivity.
  - intros s url -> Hok. unfold validateUrl. rewrite Hok. reflexivity.
  - apply message_tail_differs. reflexivity.
Qed.

(** On the example host: a number, a string without a scheme, and
    ["https://example.com"]. *)
Lemma validateUrl_examples :
  validateUrl exampleURL (JNumber 123) None
  = Normal (Invalid (str "URL must be a string"))
  /\ validateUrl exampleURL (JString (str "example.com")) None
     = Normal (Invalid (str "URL must be a valid URL"))
  /\ validateUrl exampleURL (JString (str "https://example.com")) None
     = Normal (Valid (str "https://example.com")).
Proof.
  split; [|split].
  - apply (proj1 (validateUrl_cases exampleURL (JNumber 123) None)).
    discriminate.
  - apply (proj1 (proj2 (validateUrl_cases exampleURL
                           (JString (str "example.com")) None))
             (str "example.com") (JObject 2)); reflexivity.
  - apply (proj1 (proj2 (proj2 (validateUrl_cases exampleURL
                                  (JString (str "https://example.com")) None)))
             (str "https://example.com") (JObject 1)); reflexivity.
Defined.

(** ** Membership in a list of options *)

(** C10.  Against the empty list of options every string is rejected, with
    the message that ends right after ["must be one of: "]; no input at all
    is [Valid] against it. *)
Theorem validateOneOf_no_options (fieldName : option jsstring) :
  (forall s,
      validateOneOf (JString s) [] fieldName
      = Invalid (orDefault fieldName (str "Field") ++ str " must be one of: "))
  /\ (forall value kept, validateOneOf value [] fieldName <> Valid kept).
Proof.
  split.
  - intros s. unfold validateOneOf, includes.
    cbn [existsb negb List.map join]. now rewrite app_nil_r.
  - intros value kept. destruct value; discriminate.
Qed.

(** ** Length range *)

Section LengthRange.
Variable shortestDigits : float -> jsstring.

Lemma validateMinLength_string s minLength fieldName :
  validateMinLength shortestDigits (JString s) minLength fieldName
  = if (String_length s <? minLength)%float
    then Invalid (orDefault fieldName (str "Field") ++ str " must be at least "
                  ++ Number_toString shortestDigits minLength
                  ++ str " character"
                  ++ (if (minLength =? 1)%float then str "" else str "s"))
    else Valid s.
Proof. reflexivity. Qed.

Lemma validateLength_refines value minLength maxLength fieldName :
  validateLength shortestDigits value minLength maxLength fieldName
  = minLengthThenMaxLength shortestDigits value minLength maxLength fieldName.
Proof.
  unfold validateLength, minLengthThenMaxLength.
  destruct fieldName as [name|]; reflexivity.
Qed.

End LengthRange.

(** C4.  [validateLength] returns what the min-length validator followed,
    only when it is [Valid], by the max-length validator on its value
    returns.  On a string shorter than [minLength] that is the min-length
    failure, whatever [maxLength] is, so also when both bounds are violated;
    [validateLength("hi", 3, 5)] and [validateLength("hi", 3, 1)] give the
    min-length message. *)
Theorem validateLength_is_min_then_max (shortestDigits : float -> jsstring) :
  (forall value minLength maxLength fieldName,
      validateLength shortestDigits value minLength maxLength fieldName
      = minLengthThenMaxLength shortestDigits value minLength maxLength
          fieldName)
  /\ (forall s minLength maxLength fieldName,
      validateLength shortestDigits (JString s) minLength maxLength fieldName
      = if (String_length s <? minLength)%float
        then validateMinLength shortestDigits (JString s) minLength fieldName
        else validateMaxLength shortestDigits (JString s) maxLength fieldName)
  /\ validateLength shortestDigits (JString (str "hi")) 3 5 None
     = Invalid (str "Field must be at least 3 characters")
  /\ validateLength shortestDigits (JString (str "hi")) 3 1 None
     = Invalid (str "Field must be at least 3 characters").
Proof.
  split; [|split; [|split]].
  - apply validateLength_refines.
  - intros s minLength maxLength fieldName.
    rewrite validateLength_refines. unfold minLengthThenMaxLength.
    rewrite validateMinLength_string.
    destruct (String_length s <? minLength)%float; reflexivity.
  - reflexivity.
  - reflexivity.
Qed.

(** ** The sequencer *)

Section SequencerFacts.
Variable World : Type.
Implicit Types (validators pre post : list (Validator World)).
Implicit Types (f : Validator World) (value : JsValue) (w : World).

(** When every validator returns [Valid], the loop runs to its end with
    the value and the state [thread] computes. *)
Lemma forOf_thread validators : forall value w value' w',
  thread validators value w = Some (value', w') ->
  forOf validators value w = (Normal (Completed value'), w').
Proof.
  induction validators as [|f rest IH]; intros value w value' w' H.
  - simpl in H. injection H as <- <-. reflexivity.
  - simpl in H. simpl. unfold bind.
    destruct (f value w) as [[[v1|e]|exn] w1]; try discriminate H.
    now apply IH.
Qed.

(** After a prefix of validators that all return [Valid], the loop goes on
    with the rest from the value and the state the prefix has reached. *)
Lemma forOf_app pre : forall rest value w value' w',
  thread pre value w = Some (value', w') ->
  forOf (pre ++ rest) value w = forOf rest value' w'.
Proof.
  induction pre as [|f pre IH]; intros rest value w value' w' H.
  - simpl in H. injection H as <- <-. reflexivity.
  - simpl in H. simpl. unfold bind.
    destruct (f value w) as [[[v1|e]|exn] w1]; try discriminate H.
    now apply IH.
Qed.

Lemma thread_app pre : forall rest value w,
  thread (pre ++ rest) value w
  = match thread pre value w with
    | Some (value', w') => thread rest value' w'
    | None => None
    end.
Proof.
  induction pre as [|f pre IH]; intros rest value w; simpl; [reflexivity|].
  destruct (f value w) as [[[v1|e]|exn] w1]; try reflexivity.
  apply IH.
Qed.

(** The loop's [return] is the [Invalid] result of one of the validators,
    reached after the ones before it returned [Valid]. *)
Lemma forOf_returned validators : forall value w result w',
  forOf validators value w = (Normal (Returned result), w') ->
  exists pre f post value' w0 error,
    validators = pre ++ f :: post
    /\ thread pre value w = Some (value', w0)
    /\ f value' w0 = (Normal (Invalid error), w')
    /\ result = Invalid error.
Proof.
  induction validators as [|f rest IH]; intros value w result w' H.
  - discriminate H.
  - simpl in H. unfold bind in H.
    destruct (f value w) as [[[v1|e]|exn] w1] eqn:Hf; try discriminate H.
    + apply IH in H.
      destruct H as (pre & g & post & value' & w0 & error & -> & Hth & Hg & ->).
      exists (f :: pre), g, post, value', w0, error.
      simpl. rewrite Hf. auto.
    + injection H as <- <-.
      exists [], f, rest, value, w, e. auto.
Qed.

(** [validators[validators.length - 1]] is the last validator. *)
Lemma at_index_last pre f :
  at_index (pre ++ [f]) (Z.of_nat (List.length (pre ++ [f])) - 1) = Some f.
Proof.
  unfold at_index. rewrite length_app. simpl.
  replace (Z.of_nat (List.length pre + 1) - 1)%Z
    with (Z.of_nat (List.length pre)) by lia.
  destruct (Z.ltb_spec (Z.of_nat (List.length pre)) 0) as [Hneg|_]; [lia|].
  rewrite Nat2Z.id, nth_error_app2 by lia.
  now rewrite Nat.sub_diag.
Qed.

(** What [validateAll] does once the loop has run to its end. *)
Lemma validateAll_completed pre f value w value' w0 :
  thread (pre ++ [f]) value w = Some (value', w0) ->
  validateAll value (pre ++ [f]) w
  = match f value' w0 with
    | (Normal (Valid again), w') => (Normal (Valid again), w')
    | (Normal (Invalid _), w') => (Normal (Valid value'), w')
    | (Throw exn, w') => (Throw exn, w')
    end.
Proof.
  intros H. unfold validateAll, bind at 1.
  rewrite (forOf_thread _ _ _ _ _ H), at_index_last. unfold bind, ret.
  destruct (f value' w0) as [[[again|e]|exn] w']; reflexivity.
Qed.

(** An [Invalid] result of [validateAll] is the loop's: the result of a
    validator in the sequence, called in its turn. *)
Lemma validateAll_invalid_origin validators value w error w' :
  validateAll value validators w = (Normal (Invalid error), w') ->
  exists pre f post value' w0,
    validators = pre ++ f :: post
    /\ thread pre value w = Some (value', w0)
    /\ f value' w0 = (Normal (Invalid error), w').
Proof.
  unfold validateAll, bind at 1. intros H.
  destruct (forOf validators value w) as [[[result|value1]|exn] w1] eqn:Hloop;
    try discriminate H.
  - unfold ret in H. injection H as -> ->.
    apply forOf_returned in Hloop.
    destruct Hloop as (pre & f & post & value' & w0 & e & -> & Hth & Hf & [= <-]).
    now exists pre, f, post, value', w0.
  - unfold bind, ret in H.
    destruct (at_index validators _) as [f|].
    + destruct (f value1 w1) as [[[again|e]|exn] w2]; discriminate H.
    + discriminate H.
Qed.

End SequencerFacts.

(** C8.  With no validators [validateAll] returns [Valid] with the input it
    was given, and leaves the state as it was. *)
Theorem validateAll_no_validators (World : Type) (value : JsValue) (w : World) :
  validateAll value [] w = (Normal (Valid value), w).
Proof.
  unfold validateAll, bind. simpl forOf. unfold ret, at_index. reflexivity.
Qed.

(** C3.  When the validators of [pre], applied in order with each [Valid]
    value handed to the next, have brought the value to [value'], and the
    next validator [f] returns [Invalid] on it, [validateAll] returns that
    result, and the state is the one [f] left: no validator of [post] was
    called, nor [f] a second time. *)
Theorem validateAll_short_circuits (World : Type)
  (pre : list (Validator World)) (f : Validator World)
  (post : list (Validator World)) (value value' : JsValue) (w w0 w' : World)
  (error : jsstring) :
  thread pre value w = Some (value', w0) ->
  f value' w0 = (Normal (Invalid error), w') ->
  validateAll value (pre ++ f :: post) w = (Normal (Invalid error), w').
Proof.
  intros Hpre Hf. unfold validateAll, bind at 1.
  rewrite forOf_app with (1 := Hpre). simpl forOf. unfold bind at 1.
  rewrite Hf. reflexivity.
Qed.

(** [[nonEmpty, minLength(5), maxLength(10)]] on ["hi"], each validator
    noting its call: the result is the min-length error and the third
    validator is never called. *)
Lemma validateAll_short_circuits_hi :
  thread [recording 0 (fun v => validateNonEmpty v None)] (JString (str "hi")) []
  = Some (JString (str "hi"), [0])
  /\ validateAll (JString (str "hi"))
       [recording 0 (fun v => validateNonEmpty v None);
        recording 1 (fun v => validateMinLength exampleDigits v 5 None);
        recording 2 (fun v => validateMaxLength exampleDigits v 10 None)] []
     = (Normal (Invalid (str "Field must be at least 5 characters")), [1; 0]).
Proof.
  assert (Hpre : thread [recording 0 (fun v => validateNonEmpty v None)]
                   (JString (str "hi")) [] = Some (JString (str "hi"), [0]))
    by reflexivity.
  split; [exact Hpre|].
  apply (validateAll_short_circuits (list nat)
           [recording 0 (fun v => validateNonEmpty v None)]
           (recording 1 (fun v => validateMinLength exampleDigits v 5 None))
           [recording 2 (fun v => validateMaxLength exampleDigits v 10 None)]
           (JString (str "hi")) _ [] _ _ _ Hpre).
  reflexivity.
Defined.

(** C2, as the code has it.  When every validator of a non-empty sequence
    (one of the form [pre ++ [f]]) returns [Valid] in the loop, and the
    final validator [f], called once more on the value the loop ended with,
    returns [Valid] again, [validateAll] returns the value of that second
    call.  It is the value the loop ended with exactly when the second call
    returns that same value. *)
Theorem validateAll_all_valid (World : Type)
  (pre : list (Validator World)) (f : Validator World)
  (value value' again : JsValue) (w w0 w' : World) :
  thread (pre ++ [f]) value w = Some (value', w0) ->
  f value' w0 = (Normal (Valid again), w') ->
  validateAll value (pre ++ [f]) w = (Normal (Valid again), w')
  /\ (validateAll value (pre ++ [f]) w = (Normal (Valid value'), w')
      <-> again = value').
Proof.
  intros Hloop Hagain.
  assert (Hres : validateAll value (pre ++ [f]) w = (Normal (Valid again), w')).
  { rewrite validateAll_completed with (1 := Hloop). now rewrite Hagain. }
  split; [exact Hres|]. rewrite Hres. split.
  - now intros [= ->].
  - now intros ->.
Qed.

(** [[nonEmpty, minLength(3)]] on ["hello"]. *)
Lemma validateAll_all_valid_hello :
  thread [pureValidator (fun v => validateNonEmpty v None);
          pureValidator (fun v => validateMinLength exampleDigits v 3 None)]
    (JString (str "hello")) tt
  = Some (JString (str "hello"), tt)
  /\ validateAll (JString (str "hello"))
       [pureValidator (fun v => validateNonEmpty v None);
        pureValidator (fun v => validateMinLength exampleDigits v 3 None)] tt
     = (Normal (Valid (JString (str "hello"))), tt).
Proof.
  assert (Hloop :
    thread ([pureValidator (fun v => validateNonEmpty v None)]
            ++ [pureValidator
                  (fun v => validateMinLength exampleDigits v 3 None)])
      (JString (str "hello")) tt
    = Some (JString (str "hello"), tt)) by reflexivity.
  split; [exact Hloop|].
  refine (proj1 (validateAll_all_valid unit
           [pureValidator (fun v => validateNonEmpty v None)]
           (pureValidator (fun v => validateMinLength exampleDigits v 3 None))
           (JString (str "hello")) _ (JString (str "hello")) tt _ tt Hloop _)).
  reflexivity.
Defined.

(** C2 as stated fails.  With the single validator
    [(v) => validateNonEmpty(v + "!")] on ["a"], the loop ends with ["a!"]
    and [validateAll] returns ["a!!"], the value of the second call, not
    the last result of the loop.  With [(v) => validateMaxLength(v + "!", 3)]
    on ["ab"], the second call returns [Invalid], so it produces no value,
    and the result carries the loop's ["ab!"]. *)
Lemma validateAll_second_call_differs :
  (thread [pureValidator
             (appendThen (str "!") (fun v => validateNonEmpty v None))]
     (JString (str "a")) tt
   = Some (JString (str "a!"), tt)
   /\ validateAll (JString (str "a"))
        [pureValidator
           (appendThen (str "!") (fun v => validateNonEmpty v None))] tt
      = (Normal (Valid (JString (str "a!!"))), tt)
   /\ JString (str "a!!") <> JString (str "a!"))
  /\ (thread [pureValidator
                (appendThen (str "!")
                   (fun v => validateMaxLength exampleDigits v 3 None))]
        (JString (str "ab")) tt
      = Some (JString (str "ab!"), tt)
      /\ pureValidator
           (appendThen (str "!")
              (fun v => validateMaxLength exampleDigits v 3 None))
           (JString (str "ab!")) tt
         = (Normal (Invalid (str "Field must be at most 3 characters")), tt)
      /\ validateAll (JString (str "ab"))
           [pureValidator
              (appendThen (str "!")
                 (fun v => validateMaxLength exampleDigits v 3 None))] tt
         = (Normal (Valid (JString (str "ab!"))), tt)).
Proof.
  split; (split; [reflexivity|split]); try reflexivity.
  discriminate.
Qed.

(** C9.  When every validator returns [Valid] in the loop and the final
    validator, called once more on the value the loop ended with, returns
    [Invalid], [validateAll] returns [Valid] with the loop's value.  And
    when the loop has run to its end, [validateAll] returns no [Invalid]
    at all: an [Invalid] of the extra call is never the result. *)
Theorem validateAll_discards_second_call_failure (World : Type)
  (validators : list (Validator World)) (value value' : JsValue)
  (w w0 : World) :
  thread validators value w = Some (value', w0) ->
  (forall pre f error w',
      validators = pre ++ [f] ->
      f value' w0 = (Normal (Invalid error), w') ->
      validateAll value validators w = (Normal (Valid value'), w'))
  /\ (forall error w',
      validateAll value validators w <> (Normal (Invalid error), w')).
Proof.
  intros Hloop. split.
  - intros pre f error w' -> Hf.
    rewrite validateAll_completed with (1 := Hloop). now rewrite Hf.
  - intros error w' H. apply validateAll_invalid_origin in H.
    destruct H as (pre & f & post & v1 & w1 & -> & Hpre & Hf).
    rewrite thread_app, Hpre in Hloop. simpl in Hloop.
    rewrite Hf in Hloop. discriminate Hloop.
Qed.

(** [(v) => validateMaxLength(v + "!", 3)] on ["ab"]: the second call
    fails on ["ab!"], and the result is [Valid] with ["ab!"]. *)
Lemma validateAll_discards_second_call_failure_ab :
  thread [pureValidator
            (appendThen (str "!")
               (fun v => validateMaxLength exampleDigits v 3 None))]
    (JString (str "ab")) tt
  = Some (JString (str "ab!"), tt)
  /\ validateAll (JString (str "ab"))
       [pureValidator
          (appendThen (str "!")
             (fun v => validateMaxLength exampleDigits v 3 None))] tt
     = (Normal (Valid (JString (str "ab!"))), tt).
Proof.
  assert (Hloop :
    thread [pureValidator
              (appendThen (str "!")
                 (fun v => validateMaxLength exampleDigits v 3 None))]
      (JString (str "ab")) tt
    = Some (JString (str "ab!"), tt)) by reflexivity.
  split; [exact Hloop|].
  apply (proj1 (validateAll_discards_second_call_failure unit _ _ _ _ _ Hloop)
           []
           (pureValidator
              (appendThen (str "!")
                 (fun v => validateMaxLength exampleDigits v 3 None)))
           (str "Field must be at most 3 characters") tt);
    reflexivity.
Defined.

(** ** Comparisons of binary64 numbers *)

Lemma SFcompare_antisym (a b : spec_float) :
  SFcompare b a = option_map CompOpp (SFcompare a b).
Proof.
  destruct a as [sa|sa| |sa ma ea], b as [sb|sb| |sb mb eb]; simpl;
    try reflexivity;
    try (destruct sa; reflexivity);
    try (destruct sb; reflexivity);
    try (destruct sa, sb; reflexivity).
  destruct sa, sb; try reflexivity;
    rewrite (Z.compare_antisym ea eb);
    destruct (ea ?= eb)%Z eqn:He; simpl; try reflexivity;
    rewrite (Pos.compare_cont_antisym ma mb Eq); simpl;
    try reflexivity.
Qed.

Lemma SFleb_not_SFltb (a b : spec_float) :
  SFleb a b = true -> SFltb b a = false.
Proof.
  unfold SFleb, SFltb. rewrite (SFcompare_antisym a b).
  destruct (SFcompare a b) as [[ | | ]|]; simpl; congruence.
Qed.

(** [a <= b] excludes [b < a], NaN included (both are then false). *)
Lemma leb_not_ltb (a b : float) :
  (a <=? b)%float = true -> (b <? a)%float = false.
Proof.
  rewrite FloatAxioms.leb_spec, FloatAxioms.ltb_spec. apply SFleb_not_SFltb.
Qed.

Lemma Number_isFinite_false (x : float) :
  PrimFloat.is_nan x = true \/ PrimFloat.is_infinity x = true ->
  Number_isFinite x = false.
Proof.
  unfold Number_isFinite, PrimFloat.is_finite.
  intros [-> | ->]; [reflexivity|]. now rewrite orb_true_r.
Qed.

(** ** Number range *)

(** C5.  [validateNumberRange] returns the finite-number message on an
    input that is not a number and on NaN and the infinities; the
    between-message on a finite number strictly below [min] or strictly
    above [max]; and [Valid] with the number on every finite number with
    [min <= value] and [value <= max]. *)
Theorem validateNumberRange_cases (shortestDigits : float -> jsstring)
  (value : JsValue) (min max : float) (fieldName : option jsstring) :
  let field := orDefault fieldName (str "Number") in
  (typeof value <> TagNumber ->
   validateNumberRange shortestDigits value min max fieldName
   = Invalid (field ++ str " must be a finite number"))
  /\ (forall x, value = JNumber x ->
      PrimFloat.is_nan x = true \/ PrimFloat.is_infinity x = true ->
      validateNumberRange shortestDigits value min max fieldName
      = Invalid (field ++ str " must be a finite number"))
  /\ (forall x, value = JNumber x -> Number_isFinite x = true ->
      (x <? min)%float = true \/ (max <? x)%float = true ->
      validateNumberRange shortestDigits value min max fieldName
      = Invalid (field ++ str " must be between "
                 ++ Number_toString shortestDigits min ++ str " and "
                 ++ Number_toString shortestDigits max))
  /\ (forall x, value = JNumber x -> Number_isFinite x = true ->
      (min <=? x)%float = true -> (x <=? max)%float = true ->
      validateNumberRange shortestDigits value min max fieldName = Valid x).
Proof.
  intros field. split; [|split; [|split]].
  - intros Hty. destruct value; try reflexivity. now elim Hty.
  - intros x -> Hnot. unfold validateNumberRange.
    now rewrite (Number_isFinite_false _ Hnot).
  - intros x -> Hfin Hout. unfold validateNumberRange. rewrite Hfin. simpl.
    destruct Hout as [-> | ->]; [reflexivity|]. now rewrite orb_true_r.
  - intros x -> Hfin Hlo Hhi. unfold validateNumberRange. rewrite Hfin.
    rewrite (leb_not_ltb _ _ Hlo), (leb_not_ltb _ _ Hhi). reflexivity.
Qed.

(** The range 1 to 10: the string ["5"], NaN and both infinities are not
    finite numbers; 0 and 11 are outside; 1, 5 and 10 are inside. *)
Lemma validateNumberRange_1_to_10 :
  validateNumberRange exampleDigits (JString (str "5")) 1 10 None
  = Invalid (str "Number must be a finite number")
  /\ validateNumberRange exampleDigits (JNumber nan) 1 10 None
     = Invalid (str "Number must be a finite number")
  /\ validateNumberRange exampleDigits (JNumber infinity) 1 10 None
     = Invalid (str "Number must be a finite number")
  /\ validateNumberRange exampleDigits (JNumber neg_infinity) 1 10 None
     = Invalid (str "Number must be a finite number")
  /\ validateNumberRange exampleDigits (JNumber 0) 1 10 None
     = Invalid (str "Number must be between 1 and 10")
  /\ validateNumberRange exampleDigits (JNumber 11) 1 10 None
     = Invalid (str "Number must be between 1 and 10")
  /\ validateNumberRange exampleDigits (JNumber 1) 1 10 None = Valid 1%float
  /\ validateNumberRange exampleDigits (JNumber 5) 1 10 None = Valid 5%float
  /\ validateNumberRange exampleDigits (JNumber 10) 1 10 None = Valid 10%float.
Proof.
  pose (cases v := validateNumberRange_cases exampleDigits v 1 10 None).
  split; [|split; [|split; [|split; [|split; [|split; [|split; [|split]]]]]]].
  - apply (proj1 (cases (JString (str "5")))). discriminate.
  - apply (proj1 (proj2 (cases (JNumber nan))) nan eq_refl).
    left; reflexivity.
  - apply (proj1 (proj2 (cases (JNumber infinity))) infinity eq_refl).
    right; reflexivity.
  - apply (proj1 (proj2 (cases (JNumber neg_infinity))) neg_infinity eq_refl).
    right; reflexivity.
  - apply (proj1 (proj2 (proj2 (cases (JNumber 0)))) 0%float eq_refl eq_refl).
    left; reflexivity.
  - apply (proj1 (proj2 (proj2 (cases (JNumber 11)))) 11%float eq_refl eq_refl).
    right; reflexivity.
  - apply (proj2 (proj2 (proj2 (cases (JNumber 1)))) 1%float); reflexivity.
  - apply (proj2 (proj2 (proj2 (cases (JNumber 5)))) 5%float); reflexivity.
  - apply (proj2 (proj2 (proj2 (cases (JNumber 10)))) 10%float); reflexivity.
Defined.
(** ** Positive integers *)

Lemma digits2_pos_bound (m : positive) :
  (Zpos m < 2 ^ Zpos (digits2_pos m))%Z.
Proof.
  induction m as [p IH|p IH|]; simpl digits2_pos.
  - rewrite Pos2Z.inj_succ, Z.pow_succ_r by lia. lia.
  - rewrite Pos2Z.inj_succ, Z.pow_succ_r by lia. lia.
  - reflexivity.
Qed.

(** A positive multiple of [2 ^ k] is at least [2 ^ k]. *)
Lemma multiple_of_pow2_ge (m k : positive) :
  (Zpos m mod 2 ^ Zpos k = 0 -> 2 ^ Zpos k <= Zpos m)%Z.
Proof.
  intros Hmod.
  assert (Hpow : (0 < 2 ^ Zpos k)%Z) by (apply Z.pow_pos_nonneg; lia).
  apply Z.mod_divide in Hmod; [|lia].
  apply Z.divide_pos_le in Hmod; lia.
Qed.

(** The mantissa of a valid binary64 number is below [2 ^ 53]. *)
Lemma valid_mantissa_bound (s : bool) (m : positive) (e : Z) :
  valid_binary (S754_finite s m e) = true -> (Zpos m < 2 ^ 53)%Z.
Proof.
  unfold valid_binary, SpecFloat.valid_binary, bounded, canonical_mantissa, fexp.
  intros H. apply andb_true_iff in H. destruct H as [Hcan _].
  apply Z.eqb_eq in Hcan.
  assert (Hd : (Zpos (digits2_pos m) <= 53)%Z) by (unfold prec in Hcan; lia).
  pose proof (digits2_pos_bound m) as Hm.
  assert (2 ^ Zpos (digits2_pos m) <= 2 ^ 53)%Z
    by (apply Z.pow_le_mono_r; lia).
  lia.
Qed.

Lemma Prim2SF_zero : Prim2SF 0 = S754_zero false.
Proof. reflexivity. Qed.

Lemma Prim2SF_one : Prim2SF 1 = S754_finite false 4503599627370496 (-52).
Proof. reflexivity. Qed.

(** A positive binary64 integer is at least 1. *)
Lemma SF_positive_integer_ge_1 (m : positive) (e : Z) :
  valid_binary (S754_finite false m e) = true ->
  SF_integer (S754_finite false m e) <> None ->
  SFleb (Prim2SF 1) (S754_finite false m e) = true.
Proof.
  intros Hvalid Hint. apply valid_mantissa_bound in Hvalid.
  rewrite Prim2SF_one. unfold SFleb, SFcompare.
  destruct (Z.compare_spec (-52) e) as [<- | Hlt | Hgt]; try reflexivity.
  - unfold SF_integer in Hint. cbv beta iota in Hint.
    destruct (Zpos m mod 2 ^ Zpos 52 =? 0)%Z eqn:Hmod; [|now elim Hint].
    apply Z.eqb_eq, multiple_of_pow2_ge in Hmod.
    rewrite Pos.compare_cont_spec. unfold Pos.switch_Eq.
    destruct (Pos.compare_spec 4503599627370496 m) as [_|_|Hm];
      try reflexivity.
    exfalso. apply Pos2Z.pos_lt_pos in Hm.
    assert (2 ^ Zpos 52 = 4503599627370496)%Z by reflexivity. lia.
  - exfalso. destruct e as [|k|k]; try lia.
    unfold SF_integer in Hint. cbv beta iota in Hint.
    destruct (Zpos m mod 2 ^ Zpos k =? 0)%Z eqn:Hmod; [|now elim Hint].
    apply Z.eqb_eq, multiple_of_pow2_ge in Hmod.
    assert (2 ^ 53 <= 2 ^ Zpos k)%Z by (apply Z.pow_le_mono_r; lia).
    lia.
Qed.

(** Every binary64 integer is at most 0 or at least 1. *)
Lemma integer_nonpositive_or_ge_1 (x : float) :
  Number_isInteger x = true ->
  (x <=? 0)%float = true \/ (1 <=? x)%float = true.
Proof.
  unfold Number_isInteger, float_integer.
  rewrite !FloatAxioms.leb_spec. intros Hint.
  pose proof (Prim2SF_valid x) as Hvalid.
  rewrite Prim2SF_zero, Prim2SF_one.
  destruct (Prim2SF x) as [s|s| |s m e] eqn:Hx; try discriminate Hint.
  - left; reflexivity.
  - destruct s.
    + left; reflexivity.
    + right. apply SF_positive_integer_ge_1; [exact Hvalid|].
      intros Hnone. rewrite Hnone in Hint. discriminate Hint.
Qed.

(** No number is both at least 1 and at most 0. *)
Lemma ge_1_not_nonpositive (x : float) :
  (1 <=? x)%float = true -> (x <=? 0)%float = false.
Proof.
  rewrite !FloatAxioms.leb_spec.
  rewrite Prim2SF_zero, Prim2SF_one.
  destruct (Prim2SF x) as [s|s| |s m e]; try (destruct s); simpl;
    try reflexivity; try discriminate.
Qed.

(** C6.  [validatePositiveInteger] returns the integer message on every
    input that is not an integer, the non-numbers among them; on an
    integer it returns the positive-integer message when the number is at
    most 0 and [Valid] with the number when it is at least 1, and every
    integer is in one of these two cases.  So 1.5 fails the integer check
    and 0 the positivity check. *)
Theorem validatePositiveInteger_cases (value : JsValue)
  (fieldName : option jsstring) :
  let field := orDefault fieldName (str "Number") in
  (typeof value <> TagNumber ->
   validatePositiveInteger value fieldName
   = Invalid (field ++ str " must be an integer"))
  /\ (forall x, value = JNumber x -> Number_isInteger x = false ->
      validatePositiveInteger value fieldName
      = Invalid (field ++ str " must be an integer"))
  /\ (forall x, value = JNumber x -> Number_isInteger x = true ->
      (x <=? 0)%float = true ->
      validatePositiveInteger value fieldName
      = Invalid (field ++ str " must be a positive integer"))
  /\ (forall x, value = JNumber x -> Number_isInteger x = true ->
      (1 <=? x)%float = true ->
      validatePositiveInteger value fieldName = Valid x)
  /\ (forall x, Number_isInteger x = true ->
      (x <=? 0)%float = true \/ (1 <=? x)%float = true)
  /\ validatePositiveInteger (JNumber 1.5) None
     = Invalid (str "Number must be an integer")
  /\ validatePositiveInteger (JNumber 0) None
     = Invalid (str "Number must be a positive integer").
Proof.
  intros field. split; [|split; [|split; [|split; [|split; [|split]]]]].
  - intros Hty. destruct value; try reflexivity. now elim Hty.
  - intros x -> Hint. unfold validatePositiveInteger. now rewrite Hint.
  - intros x -> Hint Hle. unfold validatePositiveInteger.
    now rewrite Hint, Hle.
  - intros x -> Hint Hge. unfold validatePositiveInteger.
    now rewrite Hint, (ge_1_not_nonpositive _ Hge).
  - apply integer_nonpositive_or_ge_1.
  - reflexivity.
  - reflexivity.
Qed.

(** The string ["1"], 1.5, -1, 1 and 100. *)
Lemma validatePositiveInteger_examples :
  validatePositiveInteger (JString (str "1")) None
  = Invalid (str "Number must be an integer")
  /\ validatePositiveInteger (JNumber 1.5) None
     = Invalid (str "Number must be an integer")
  /\ validatePositiveInteger (JNumber (-1)) None
     = Invalid (str "Number must be a positive integer")
  /\ validatePositiveInteger (JNumber 1) None = Valid 1%float
  /\ validatePositiveInteger (JNumber 100) None = Valid 100%float.
Proof.
  pose (cases v := validatePositiveInteger_cases v None).
  split; [|split; [|split; [|split]]].
  - apply (proj1 (cases (JString (str "1")))). discriminate.
  - apply (proj1 (proj2 (cases (JNumber 1.5))) 1.5%float); reflexivity.
  - apply (proj1 (proj2 (proj2 (cases (JNumber (-1))))) (-1)%float);
      reflexivity.
  - apply (proj1 (proj2 (proj2 (proj2 (cases (JNumber 1))))) 1%float);
      reflexivity.
  - apply (proj1 (proj2 (proj2 (proj2 (cases (JNumber 100))))) 100%float);
      reflexivity.
Defined.

(* ------------------------------------------------------------------ *)
(** * Further properties of the validators *)
Lemma digits2_pos_lower (m : positive) :
  (2 ^ (Zpos (digits2_pos m) - 1) <= Zpos m)%Z.
Proof.
  induction m as [p IH|p IH|]; simpl digits2_pos.
  - rewrite Pos2Z.inj_succ.
    replace (Z.succ (Zpos (digits2_pos p)) - 1)%Z
      with (Z.succ (Zpos (digits2_pos p) - 1)) by lia.
    rewrite Z.pow_succ_r by lia. lia.
  - rewrite Pos2Z.inj_succ.
    replace (Z.succ (Zpos (digits2_pos p)) - 1)%Z
      with (Z.succ (Zpos (digits2_pos p) - 1)) by lia.
    rewrite Z.pow_succ_r by lia. lia.
  - reflexivity.
Qed.

Lemma Some_eq (A : Type) (x y : A) : Some x = Some y -> x = y.
Proof. congruence. Qed.

(** The shape of a valid binary64 number that denotes an integer: its
    mantissa has 53 binary digits and its exponent is at least -52. *)
Lemma SF_integer_shape (s : bool) (m : positive) (e : Z) (a : Z) :
  valid_binary (S754_finite s m e) = true ->
  SF_integer (S754_finite s m e) = Some a ->
  (-52 <= e /\ 2 ^ 52 <= Zpos m < 2 ^ 53
   /\ a * 2 ^ 52 = (if s then -1 else 1) * (Zpos m * 2 ^ (e + 52)))%Z.
Proof.
  intros Hvalid Hint.
  pose proof (valid_mantissa_bound _ _ _ Hvalid) as Hupper.
  assert (He : (-52 <= e)%Z).
  { destruct e as [|k|k]; try lia.
    unfold SF_integer in Hint. cbv beta iota in Hint.
    destruct (Zpos m mod 2 ^ Zpos k =? 0)%Z eqn:Hmod; [|discriminate Hint].
    apply Z.eqb_eq, multiple_of_pow2_ge in Hmod.
    destruct (Z.le_gt_cases 53 (Zpos k)) as [Hk|Hk]; [|lia].
    assert (2 ^ 53 <= 2 ^ Zpos k)%Z by (apply Z.pow_le_mono_r; lia). lia. }
  assert (Hdigits : Zpos (digits2_pos m) = 53%Z).
  { unfold valid_binary, SpecFloat.valid_binary, bounded, canonical_mantissa,
      fexp in Hvalid.
    apply andb_true_iff in Hvalid. destruct Hvalid as [Hcan _].
    apply Z.eqb_eq in Hcan. unfold emin, prec, emax in Hcan. lia. }
  pose proof (digits2_pos_lower m) as Hlower. rewrite Hdigits in Hlower.
  change (53 - 1)%Z with 52%Z in Hlower.
  split; [exact He|]. split; [split; [exact Hlower|exact Hupper]|].
  clear Hvalid Hdigits.
  unfold SF_integer in Hint. destruct e as [|k|k].
  - cbv beta iota delta [option_map] in Hint.
    apply Some_eq in Hint. subst a.
    change (0 + 52)%Z with 52%Z.
    destruct s; ring.
  - cbv beta iota delta [option_map] in Hint.
    apply Some_eq in Hint. subst a.
    rewrite Z.pow_add_r by lia. generalize (2 ^ Zpos k)%Z; intros P.
    destruct s; ring.
  - cbv beta iota in Hint.
    destruct (Zpos m mod 2 ^ Zpos k =? 0)%Z eqn:Hmod; [|discriminate Hint].
    cbv beta iota delta [option_map] in Hint.
    apply Some_eq in Hint. subst a.
    apply Z.eqb_eq in Hmod.
    assert (Hpow : (0 < 2 ^ Zpos k)%Z) by (apply Z.pow_pos_nonneg; lia).
    pose proof (Z.div_mod (Zpos m) (2 ^ Zpos k) ltac:(lia)) as Hdiv.
    rewrite Hmod, Z.add_0_r in Hdiv.
    assert (Hsplit : (2 ^ 52 = 2 ^ Zpos k * 2 ^ (Zneg k + 52))%Z).
    { rewrite <- Z.pow_add_r by lia. f_equal. lia. }
    set (q := (Zpos m / 2 ^ Zpos k)%Z) in *.
    set (P := (2 ^ Zpos k)%Z) in *. set (Q := (2 ^ (Zneg k + 52))%Z) in *.
    rewrite Hsplit, Hdiv. destruct s; ring.
Qed.

(** Numbers [m * 2 ^ e] with 53-digit mantissas compare by exponent first,
    then by mantissa. *)
Lemma scaled_compare (m1 m2 e1 e2 a b : Z) :
  (2 ^ 52 <= m1 < 2 ^ 53 -> 2 ^ 52 <= m2 < 2 ^ 53 ->
   -52 <= e1 -> -52 <= e2 ->
   a * 2 ^ 52 = m1 * 2 ^ (e1 + 52) -> b * 2 ^ 52 = m2 * 2 ^ (e2 + 52) ->
   (a ?= b) = match e1 ?= e2 with
              | Lt => Lt
              | Gt => Gt
              | Eq => m1 ?= m2
              end)%Z.
Proof.
  intros Hm1 Hm2 He1 He2 Ha Hb.
  replace (2 ^ 53)%Z with (2 * 2 ^ 52)%Z in Hm1, Hm2 by reflexivity.
  assert (HT : (0 < 2 ^ 52)%Z) by reflexivity.
  assert (Hstep : forall e e', (-52 <= e < e' ->
            2 * 2 ^ (e + 52) <= 2 ^ (e' + 52))%Z).
  { intros e e' He. rewrite <- Z.pow_succ_r by lia.
    apply Z.pow_le_mono_r; lia. }
  assert (HX1 : (0 < 2 ^ (e1 + 52))%Z) by (apply Z.pow_pos_nonneg; lia).
  assert (HX2 : (0 < 2 ^ (e2 + 52))%Z) by (apply Z.pow_pos_nonneg; lia).
  destruct (Z.compare_spec e1 e2) as [Heq | Hlt | Hgt].
  - subst e2. clear Hstep HX2.
    remember (2 ^ (e1 + 52))%Z as X eqn:HX. remember (2 ^ 52)%Z as T eqn:HT'.
    clear HX HT'.
    destruct (Z.compare_spec m1 m2) as [Hm | Hm | Hm].
    + apply Z.compare_eq_iff. subst m2. nia.
    + apply Z.compare_lt_iff.
      assert (a * T < b * T)%Z by nia. nia.
    + apply Z.compare_gt_iff.
      assert (b * T < a * T)%Z by nia. nia.
  - apply Z.compare_lt_iff. specialize (Hstep e1 e2 ltac:(lia)).
    remember (2 ^ (e1 + 52))%Z as X1 eqn:E1.
    remember (2 ^ (e2 + 52))%Z as X2 eqn:E2.
    remember (2 ^ 52)%Z as T eqn:E3. clear E1 E2 E3.
    assert (m1 * X1 < 2 * T * X1)%Z by nia.
    assert (T * X2 <= m2 * X2)%Z by nia.
    assert (a * T < b * T)%Z by nia. nia.
  - apply Z.compare_gt_iff. specialize (Hstep e2 e1 ltac:(lia)).
    remember (2 ^ (e1 + 52))%Z as X1 eqn:E1.
    remember (2 ^ (e2 + 52))%Z as X2 eqn:E2.
    remember (2 ^ 52)%Z as T eqn:E3. clear E1 E2 E3.
    assert (m2 * X2 < 2 * T * X2)%Z by nia.
    assert (T * X1 <= m1 * X1)%Z by nia.
    assert (b * T < a * T)%Z by nia. nia.
Qed.

(** Two binary64 numbers that denote integers compare as the integers. *)
Lemma SFcompare_integers (x y : spec_float) (a b : Z) :
  valid_binary x = true -> valid_binary y = true ->
  SF_integer x = Some a -> SF_integer y = Some b ->
  SFcompare x y = Some (a ?= b)%Z.
Proof.
  intros Vx Vy Hx Hy.
  assert (Hfin : forall s m e c, valid_binary (S754_finite s m e) = true ->
            SF_integer (S754_finite s m e) = Some c ->
            exists c', (c = (if s then - c' else c') /\ 0 < c'
              /\ -52 <= e /\ 2 ^ 52 <= Zpos m < 2 ^ 53
              /\ c' * 2 ^ 52 = Zpos m * 2 ^ (e + 52))%Z).
  { intros s m e c V H.
    destruct (SF_integer_shape _ _ _ _ V H) as (He & Hm & Hc).
    assert (0 < 2 ^ (e + 52))%Z by (apply Z.pow_pos_nonneg; lia).
    assert (0 < 2 ^ 52)%Z by reflexivity.
    exists (if s then - c else c)%Z. destruct s.
    - repeat split; try lia; nia.
    - repeat split; try lia; nia. }
  destruct x as [sx|sx| |sx mx ex]; try discriminate Hx;
    destruct y as [sy|sy| |sy my ey]; try discriminate Hy.
  - injection Hx as <-. injection Hy as <-. reflexivity.
  - injection Hx as <-.
    destruct (Hfin _ _ _ _ Vy Hy) as (b' & -> & Hb' & _).
    unfold SFcompare. f_equal. symmetry. destruct sy.
    + apply Z.compare_gt_iff. lia.
    + apply Z.compare_lt_iff. lia.
  - injection Hy as <-.
    destruct (Hfin _ _ _ _ Vx Hx) as (a' & -> & Ha' & _).
    unfold SFcompare. f_equal. symmetry. destruct sx.
    + apply Z.compare_lt_iff. lia.
    + apply Z.compare_gt_iff. lia.
  - destruct (Hfin _ _ _ _ Vx Hx) as (a' & -> & Ha' & Hex & Hmx & Hva).
    destruct (Hfin _ _ _ _ Vy Hy) as (b' & -> & Hb' & Hey & Hmy & Hvb).
    pose proof (scaled_compare _ _ _ _ _ _ Hmx Hmy Hex Hey Hva Hvb) as Hcmp.
    change (Zpos mx ?= Zpos my)%Z with (Pos.compare_cont Eq mx my) in Hcmp.
    unfold SFcompare. f_equal. destruct sx, sy.
    + rewrite Z.compare_opp, (Z.compare_antisym a' b'), Hcmp.
      destruct (ex ?= ey)%Z; reflexivity.
    + symmetry. apply Z.compare_lt_iff. lia.
    + symmetry. apply Z.compare_gt_iff. lia.
    + rewrite Hcmp. reflexivity.
Qed.

(** The binary64 numbers that denote integers are never NaN or infinite. *)
Lemma integer_is_finite {x : float} {a : Z} :
  float_integer x = Some a ->
  PrimFloat.is_nan x = false /\ PrimFloat.is_infinity x = false.
Proof.
  unfold float_integer, PrimFloat.is_nan, PrimFloat.is_infinity. intros H.
  rewrite !FloatAxioms.eqb_spec, FloatAxioms.abs_spec.
  replace (Prim2SF infinity) with (S754_infinity false) by reflexivity.
  destruct (Prim2SF x) as [s|s| |s m e]; try discriminate H.
  - split; reflexivity.
  - split; [|reflexivity]. unfold SFeqb, SFcompare.
    rewrite Z.compare_refl, Pos.compare_cont_refl. now destruct s.
Qed.

Lemma leb_integers {x y : float} {a b : Z} :
  float_integer x = Some a -> float_integer y = Some b ->
  (x <=? y)%float = (a <=? b)%Z.
Proof.
  unfold float_integer. intros Hx Hy. rewrite FloatAxioms.leb_spec.
  unfold SFleb.
  rewrite (SFcompare_integers _ _ _ _ (Prim2SF_valid x) (Prim2SF_valid y) Hx Hy).
  unfold Z.leb. now destruct (a ?= b)%Z.
Qed.

Lemma ltb_integers {x y : float} {a b : Z} :
  float_integer x = Some a -> float_integer y = Some b ->
  (x <? y)%float = (a <? b)%Z.
Proof.
  unfold float_integer. intros Hx Hy. rewrite FloatAxioms.ltb_spec.
  unfold SFltb.
  rewrite (SFcompare_integers _ _ _ _ (Prim2SF_valid x) (Prim2SF_valid y) Hx Hy).
  unfold Z.ltb. now destruct (a ?= b)%Z.
Qed.

Lemma eqb_integers {x y : float} {a b : Z} :
  float_integer x = Some a -> float_integer y = Some b ->
  (x =? y)%float = (a =? b)%Z.
Proof.
  unfold float_integer. intros Hx Hy. rewrite FloatAxioms.eqb_spec.
  unfold SFeqb.
  rewrite (SFcompare_integers _ _ _ _ (Prim2SF_valid x) (Prim2SF_valid y) Hx Hy).
  destruct (Z.compare_spec a b), (Z.eqb_spec a b); try reflexivity; lia.
Qed.

(** ** Integers as binary64 numbers *)

Lemma iter_xO_digits (p k : positive) :
  digits2_pos (Pos.iter xO p k) = (digits2_pos p + k)%positive.
Proof.
  induction k as [|k IH] using Pos.peano_ind.
  - simpl. now rewrite Pos.add_1_r.
  - rewrite Pos.iter_succ. simpl digits2_pos. rewrite IH. lia.
Qed.

Lemma iter_xO_value (p k : positive) :
  Zpos (Pos.iter xO p k) = (Zpos p * 2 ^ Zpos k)%Z.
Proof.
  induction k as [|k IH] using Pos.peano_ind.
  - simpl. lia.
  - rewrite Pos.iter_succ, Pos2Z.inj_xO, IH, Pos2Z.inj_succ.
    rewrite Z.pow_succ_r by lia. ring.
Qed.

(** Rounding leaves a 53-digit mantissa with a small exponent as it is. *)
Lemma binary_round_aux_exact (m : positive) (e : Z) :
  Zpos (digits2_pos m) = 53%Z -> (-52 <= e <= 0)%Z ->
  binary_round_aux prec emax false (Zpos m) e loc_Exact
  = S754_finite false m e.
Proof.
  intros Hd He.
  assert (Hshift : (fexp prec emax (Zdigits2 (Zpos m) + e) - e = 0)%Z).
  { unfold fexp, emin, prec, emax, Zdigits2. lia. }
  unfold binary_round_aux, shr_fexp. rewrite Hshift. unfold shr.
  cbv beta iota. unfold shr_record_of_loc, shr_m, loc_of_shr_record.
  cbv beta iota. unfold round_nearest_even. rewrite Hshift.
  cbv beta iota.
  destruct (Z.leb_spec e (emax - prec)) as [_|Hbig]; [reflexivity|].
  unfold emax, prec in Hbig. lia.
Qed.

(** A positive integer below [2 ^ 53] is a binary64 number, exactly. *)
Lemma binary_normalize_small (p : positive) :
  (Zpos p < 2 ^ 53)%Z ->
  SF_integer (binary_normalize prec emax (Zpos p) 0 false) = Some (Zpos p).
Proof.
  intros Hp. unfold binary_normalize, binary_round.
  assert (Hd : (Zpos (digits2_pos p) <= 53)%Z).
  { pose proof (digits2_pos_lower p) as Hlow.
    destruct (Z.le_gt_cases (Zpos (digits2_pos p)) 53) as [H|H]; [exact H|].
    assert (2 ^ 53 <= 2 ^ (Zpos (digits2_pos p) - 1))%Z
      by (apply Z.pow_le_mono_r; lia).
    lia. }
  assert (Hfexp : fexp prec emax (Zpos (digits2_pos p) + 0)
                  = (Zpos (digits2_pos p) - 53)%Z).
  { unfold fexp, emin, prec, emax. lia. }
  rewrite Hfexp. unfold shl_align.
  destruct (Zpos (digits2_pos p) - 53 - 0)%Z as [|k|k] eqn:Hk; try lia.
  - rewrite binary_round_aux_exact by lia. reflexivity.
  - assert (Hk' : (Zpos k = 53 - Zpos (digits2_pos p))%Z) by lia.
    rewrite binary_round_aux_exact.
    + replace (Zpos (digits2_pos p) - 53)%Z with (Zneg k) by lia.
      unfold SF_integer. rewrite iter_xO_value.
      assert (Hpow : (0 < 2 ^ Zpos k)%Z) by (apply Z.pow_pos_nonneg; lia).
      rewrite Z.mod_mul, Z.eqb_refl, Z.div_mul by lia. reflexivity.
    + rewrite iter_xO_digits, Pos2Z.inj_add. lia.
    + lia.
Qed.

(** The number that [n] converts to, for [0 <= n < 2 ^ 53], denotes [n]. *)
Lemma float_integer_of_Z (n : Z) :
  (0 <= n < 2 ^ 53)%Z ->
  float_integer (PrimFloat.of_uint63 (Uint63.of_Z n)) = Some n.
Proof.
  intros Hn. unfold float_integer. rewrite of_uint63_spec, Uint63.of_Z_spec.
  rewrite Z.mod_small.
  - destruct n as [|p|p]; [reflexivity| |lia].
    apply binary_normalize_small. lia.
  - assert (2 ^ 53 < wB)%Z by reflexivity. lia.
Qed.

(** The length of a string, as a number, denotes its length (a string has
    at most [2 ^ 53 - 1] code units). *)
Lemma String_length_integer {s : jsstring} :
  (Z.of_nat (List.length s) < 2 ^ 53)%Z ->
  float_integer (String_length s) = Some (Z.of_nat (List.length s)).
Proof. intros H. apply float_integer_of_Z. lia. Qed.

(** [Number::toString] writes a safe integer in decimal. *)
Lemma Number_toString_integer (shortestDigits : float -> jsstring)
  {x : float} {k : Z} :
  float_integer x = Some k -> (Z.abs k <= 2 ^ 53)%Z ->
  Number_toString shortestDigits x = decimal k.
Proof.
  intros Hx Hk. unfold Number_toString.
  destruct (integer_is_finite Hx) as [-> ->]. rewrite Hx.
  destruct (Z.leb_spec (Z.abs k) (2 ^ 53)) as [_|Hbig]; [reflexivity|lia].
Qed.

Lemma float_integer_one : float_integer 1 = Some 1%Z.
Proof. reflexivity. Qed.

Lemma float_integer_zero : float_integer 0 = Some 0%Z.
Proof. reflexivity. Qed.

(** ** Length bounds that are integers *)

(** X1.  With a minimum that is the integer [k], [validateMinLength]
    accepts a string exactly when it has at least [k] code units, and
    returns it unchanged; on a shorter string the message names [k] in
    decimal, with "character" in the singular exactly when [k] is 1. *)
Theorem validateMinLength_integer_bound (shortestDigits : float -> jsstring)
  (s : jsstring) (minLength : float) (k : Z) (fieldName : option jsstring) :
  (Z.of_nat (List.length s) < 2 ^ 53)%Z ->
  float_integer minLength = Some k -> (Z.abs k <= 2 ^ 53)%Z ->
  validateMinLength shortestDigits (JString s) minLength fieldName
  = if (Z.of_nat (List.length s) <? k)%Z
    then Invalid (orDefault fieldName (str "Field")
                  ++ str " must be at least " ++ decimal k
                  ++ str " character"
                  ++ (if (k =? 1)%Z then str "" else str "s"))
    else Valid s.
Proof.
  intros Hlen Hk Hsafe. rewrite validateMinLength_string.
  rewrite (ltb_integers (String_length_integer Hlen) Hk).
  rewrite (Number_toString_integer _ Hk Hsafe).
  rewrite (eqb_integers Hk float_integer_one). reflexivity.
Qed.

(** A five-character string against the minimums 5, 6 and 1. *)
Lemma validateMinLength_integer_bound_hello :
  validateMinLength exampleDigits (JString (str "hello")) 5 None
  = Valid (str "hello")
  /\ validateMinLength exampleDigits (JString (str "hello")) 6 None
     = Invalid (str "Field must be at least 6 characters")
  /\ validateMinLength exampleDigits (JString []) 1 (Some (str "Name"))
     = Invalid (str "Name must be at least 1 character").
Proof.
  split; [|split].
  - apply (validateMinLength_integer_bound exampleDigits (str "hello") 5 5
             None); [reflexivity|reflexivity|discriminate].
  - apply (validateMinLength_integer_bound exampleDigits (str "hello") 6 6
             None); [reflexivity|reflexivity|discriminate].
  - apply (validateMinLength_integer_bound exampleDigits [] 1 1
             (Some (str "Name"))); [reflexivity|reflexivity|discriminate].
Defined.

Lemma validateMaxLength_string (shortestDigits : float -> jsstring)
  (s : jsstring) (maxLength : float) (fieldName : option jsstring) :
  validateMaxLength shortestDigits (JString s) maxLength fieldName
  = if (maxLength <? String_length s)%float
    then Invalid (orDefault fieldName (str "Field") ++ str " must be at most "
                  ++ Number_toString shortestDigits maxLength
                  ++ str " character"
                  ++ (if (maxLength =? 1)%float then str "" else str "s"))
    else Valid s.
Proof. reflexivity. Qed.

(** X2.  With a maximum that is the integer [k], [validateMaxLength]
    accepts a string exactly when it has at most [k] code units, and
    returns it unchanged; on a longer string the message names [k] in
    decimal, with "character" in the singular exactly when [k] is 1. *)
Theorem validateMaxLength_integer_bound (shortestDigits : float -> jsstring)
  (s : jsstring) (maxLength : float) (k : Z) (fieldName : option jsstring) :
  (Z.of_nat (List.length s) < 2 ^ 53)%Z ->
  float_integer maxLength = Some k -> (Z.abs k <= 2 ^ 53)%Z ->
  validateMaxLength shortestDigits (JString s) maxLength fieldName
  = if (k <? Z.of_nat (List.length s))%Z
    then Invalid (orDefault fieldName (str "Field")
                  ++ str " must be at most " ++ decimal k
                  ++ str " character"
                  ++ (if (k =? 1)%Z then str "" else str "s"))
    else Valid s.
Proof.
  intros Hlen Hk Hsafe. rewrite validateMaxLength_string.
  rewrite (ltb_integers Hk (String_length_integer Hlen)).
  rewrite (Number_toString_integer _ Hk Hsafe).
  rewrite (eqb_integers Hk float_integer_one). reflexivity.
Qed.

(** A five-character string against the maximums 5, 4 and 1. *)
Lemma validateMaxLength_integer_bound_hello :
  validateMaxLength exampleDigits (JString (str "hello")) 5 None
  = Valid (str "hello")
  /\ validateMaxLength exampleDigits (JString (str "hello")) 4 None
     = Invalid (str "Field must be at most 4 characters")
  /\ validateMaxLength exampleDigits (JString (str "hello")) 1 None
     = Invalid (str "Field must be at most 1 character").
Proof.
  split; [|split].
  - apply (validateMaxLength_integer_bound exampleDigits (str "hello") 5 5
             None); [reflexivity|reflexivity|discriminate].
  - apply (validateMaxLength_integer_bound exampleDigits (str "hello") 4 4
             None); [reflexivity|reflexivity|discriminate].
  - apply (validateMaxLength_integer_bound exampleDigits (str "hello") 1 1
             None); [reflexivity|reflexivity|discriminate].
Defined.

(** X3.  With integer bounds [lo] and [hi], [validateLength] accepts a
    string exactly when its length is between them, both included; so
    with [hi < lo] it accepts no string. *)
Theorem validateLength_integer_bounds (shortestDigits : float -> jsstring)
  (s : jsstring) (minLength maxLength : float) (lo hi : Z)
  (fieldName : option jsstring) :
  (Z.of_nat (List.length s) < 2 ^ 53)%Z ->
  float_integer minLength = Some lo -> float_integer maxLength = Some hi ->
  (validateLength shortestDigits (JString s) minLength maxLength fieldName
   = Valid s <-> (lo <= Z.of_nat (List.length s) <= hi)%Z)
  /\ ((hi < lo)%Z ->
      forall kept,
        validateLength shortestDigits (JString s) minLength maxLength fieldName
        <> Valid kept).
Proof.
  intros Hlen Hlo Hhi.
  rewrite validateLength_refines. unfold minLengthThenMaxLength.
  rewrite validateMinLength_string.
  rewrite (ltb_integers (String_length_integer Hlen) Hlo).
  destruct (Z.ltb_spec (Z.of_nat (List.length s)) lo) as [H1|H1].
  - split; [split; [discriminate|lia]|discriminate].
  - rewrite validateMaxLength_string.
    rewrite (ltb_integers Hhi (String_length_integer Hlen)).
    destruct (Z.ltb_spec hi (Z.of_nat (List.length s))) as [H2|H2].
    + split; [split; [discriminate|lia]|discriminate].
    + split; [split; [lia|reflexivity]|lia].
Qed.

(** ["hello"] is within 3 to 10; the reversed range, 10 to 3, accepts
    nothing. *)
Lemma validateLength_integer_bounds_hello :
  validateLength exampleDigits (JString (str "hello")) 3 10 None
  = Valid (str "hello")
  /\ validateLength exampleDigits (JString (str "hello")) 10 3 None
     <> Valid (str "hello").
Proof.
  split.
  - apply (proj1 (validateLength_integer_bounds exampleDigits (str "hello")
                    3 10 3 10 None eq_refl eq_refl eq_refl)).
    simpl. lia.
  - apply (proj2 (validateLength_integer_bounds exampleDigits (str "hello")
                    10 3 10 3 None eq_refl eq_refl eq_refl)).
    lia.
Defined.

(** ** The order on binary64 numbers *)

Lemma SFleb_trans (a b c : spec_float) :
  SFleb a b = true -> SFleb b c = true -> SFleb a c = true.
Proof.
  unfold SFleb, SFcompare.
  destruct a as [[]|[]| |[] ma ea], b as [[]|[]| |[] mb eb],
    c as [[]|[]| |[] mc ec];
    try reflexivity; try discriminate; intros Hab Hbc;
    change (Pos.compare_cont Eq) with Pos.compare in *;
    destruct (Z.compare_spec ea eb), (Z.compare_spec eb ec),
      (Z.compare_spec ea ec);
    try reflexivity; try discriminate; try lia; subst;
    destruct (Pos.compare_spec ma mb), (Pos.compare_spec mb mc),
      (Pos.compare_spec ma mc);
    try reflexivity; try discriminate; lia.
Qed.

Lemma SFcompare_defined (a b : spec_float) :
  a <> S754_nan -> b <> S754_nan -> SFcompare a b <> None.
Proof.
  destruct a, b; simpl; congruence.
Qed.

Lemma is_nan_Prim2SF (x : float) :
  PrimFloat.is_nan x = true <-> Prim2SF x = S754_nan.
Proof.
  unfold PrimFloat.is_nan. rewrite FloatAxioms.eqb_spec. unfold SFeqb.
  destruct (Prim2SF x) as [s|s| |s m e]; simpl.
  - split; discriminate.
  - destruct s; split; discriminate.
  - split; reflexivity.
  - rewrite Z.compare_refl, Pos.compare_cont_refl.
    destruct s; split; discriminate.
Qed.

(** Against a NaN every comparison is false. *)
Lemma ltb_nan (x y : float) :
  PrimFloat.is_nan x = true \/ PrimFloat.is_nan y = true ->
  (x <? y)%float = false.
Proof.
  rewrite FloatAxioms.ltb_spec, !is_nan_Prim2SF. unfold SFltb.
  intros [-> | ->]; [reflexivity|]. now destruct (Prim2SF x).
Qed.

(** Two numbers that are not NaN are ordered one way or the other. *)
Lemma ltb_false_leb (x y : float) :
  PrimFloat.is_nan x = false -> PrimFloat.is_nan y = false ->
  (x <? y)%float = false -> (y <=? x)%float = true.
Proof.
  intros Hx Hy. rewrite FloatAxioms.ltb_spec, FloatAxioms.leb_spec.
  unfold SFltb, SFleb. rewrite (SFcompare_antisym (Prim2SF x) (Prim2SF y)).
  assert (Hdef : SFcompare (Prim2SF x) (Prim2SF y) <> None).
  { apply SFcompare_defined; intros Hnan; apply is_nan_Prim2SF in Hnan;
      congruence. }
  destruct (SFcompare (Prim2SF x) (Prim2SF y)) as [[ | | ]|]; simpl;
    congruence.
Qed.

Lemma leb_trans (x y z : float) :
  (x <=? y)%float = true -> (y <=? z)%float = true -> (x <=? z)%float = true.
Proof. rewrite !FloatAxioms.leb_spec. apply SFleb_trans. Qed.

Lemma Number_isFinite_not_nan (x : float) :
  Number_isFinite x = true -> PrimFloat.is_nan x = false.
Proof.
  unfold Number_isFinite, PrimFloat.is_finite.
  destruct (PrimFloat.is_nan x); [discriminate|reflexivity].
Qed.

(** ** Bounds that are NaN, and ranges *)

(** X4.  A bound that is NaN checks nothing: with a NaN minimum or
    maximum the length validators accept every string, and
    [validateNumberRange] with NaN bounds accepts every finite number. *)
Theorem NaN_bounds_accept_everything (shortestDigits : float -> jsstring)
  (bound : float) (fieldName : option jsstring) :
  PrimFloat.is_nan bound = true ->
  (forall s,
      validateMinLength shortestDigits (JString s) bound fieldName = Valid s)
  /\ (forall s,
      validateMaxLength shortestDigits (JString s) bound fieldName = Valid s)
  /\ (forall s,
      validateLength shortestDigits (JString s) bound bound fieldName
      = Valid s)
  /\ (forall x, Number_isFinite x = true ->
      validateNumberRange shortestDigits (JNumber x) bound bound fieldName
      = Valid x).
Proof.
  intros Hnan.
  assert (Hmin : forall s,
    validateMinLength shortestDigits (JString s) bound fieldName = Valid s).
  { intros s. rewrite validateMinLength_string, ltb_nan by now right.
    reflexivity. }
  assert (Hmax : forall s,
    validateMaxLength shortestDigits (JString s) bound fieldName = Valid s).
  { intros s. rewrite validateMaxLength_string, ltb_nan by now left.
    reflexivity. }
  split; [exact Hmin|]. split; [exact Hmax|]. split.
  - intros s. rewrite validateLength_refines. unfold minLengthThenMaxLength.
    rewrite Hmin. apply Hmax.
  - intros x Hfin. unfold validateNumberRange. rewrite Hfin.
    rewrite (ltb_nan x bound) by now right.
    rewrite (ltb_nan bound x) by now left. reflexivity.
Qed.

(** With the bound [NaN]: the empty string passes a minimum, and 2^1000
    passes a range. *)
Lemma NaN_bounds_accept_everything_examples :
  PrimFloat.is_nan nan = true
  /\ validateMinLength exampleDigits (JString []) nan None = Valid []
  /\ validateNumberRange exampleDigits (JNumber 0x1p+1000) nan nan None
     = Valid 0x1p+1000%float.
Proof.
  pose proof (NaN_bounds_accept_everything exampleDigits nan None eq_refl)
    as (Hmin & _ & _ & Hrange).
  split; [reflexivity|]. split; [apply Hmin|]. apply Hrange. reflexivity.
Defined.

Lemma validateNumberRange_valid_inv (shortestDigits : float -> jsstring)
  (value : JsValue) (min max x : float) (fieldName : option jsstring) :
  PrimFloat.is_nan min = false -> PrimFloat.is_nan max = false ->
  validateNumberRange shortestDigits value min max fieldName = Valid x ->
  value = JNumber x /\ Number_isFinite x = true
  /\ (min <=? x)%float = true /\ (x <=? max)%float = true.
Proof.
  intros Hmin Hmax.
  destruct value; try discriminate. unfold validateNumberRange.
  destruct (Number_isFinite n) eqn:Hfin; [|discriminate]. simpl negb.
  cbv iota.
  destruct (n <? min)%float eqn:Hlo; [discriminate|].
  destruct (max <? n)%float eqn:Hhi; [discriminate|].
  intros [= ->].
  pose proof (Number_isFinite_not_nan _ Hfin) as Hx.
  repeat split; try assumption.
  - now apply ltb_false_leb.
  - now apply ltb_false_leb.
Qed.

(** X5.  With bounds that are not NaN, [validateNumberRange] returns
    [Valid] exactly on the finite numbers [x] with [min <= x <= max], and
    the value it returns is the input number. *)
Theorem validateNumberRange_valid_iff (shortestDigits : float -> jsstring)
  (value : JsValue) (min max x : float) (fieldName : option jsstring) :
  PrimFloat.is_nan min = false -> PrimFloat.is_nan max = false ->
  (validateNumberRange shortestDigits value min max fieldName = Valid x
   <-> value = JNumber x /\ Number_isFinite x = true
       /\ (min <=? x)%float = true /\ (x <=? max)%float = true).
Proof.
  intros Hmin Hmax. split.
  - now apply validateNumberRange_valid_inv.
  - intros (-> & Hfin & Hlo & Hhi). unfold validateNumberRange.
    rewrite Hfin, (leb_not_ltb _ _ Hlo), (leb_not_ltb _ _ Hhi). reflexivity.
Qed.

(** 2.5 is within 1 to 10. *)
Lemma validateNumberRange_valid_iff_example :
  validateNumberRange exampleDigits (JNumber 2.5) 1 10 None = Valid 2.5%float.
Proof.
  apply (proj2 (validateNumberRange_valid_iff exampleDigits (JNumber 2.5)
                  1 10 2.5 None eq_refl eq_refl)).
  repeat split.
Defined.

(** X6.  A range whose maximum is below its minimum is empty:
    [validateNumberRange] accepts no value at all. *)
Theorem validateNumberRange_empty_range (shortestDigits : float -> jsstring)
  (value : JsValue) (min max : float) (fieldName : option jsstring) :
  (max <? min)%float = true ->
  forall x,
    validateNumberRange shortestDigits value min max fieldName <> Valid x.
Proof.
  intros Hempty x Hvalid.
  assert (Hmin : PrimFloat.is_nan min = false).
  { destruct (PrimFloat.is_nan min) eqn:H; [|reflexivity].
    rewrite ltb_nan in Hempty by now right. discriminate. }
  assert (Hmax : PrimFloat.is_nan max = false).
  { destruct (PrimFloat.is_nan max) eqn:H; [|reflexivity].
    rewrite ltb_nan in Hempty by now left. discriminate. }
  apply (validateNumberRange_valid_inv shortestDigits value min max x
           fieldName Hmin Hmax) in Hvalid.
  destruct Hvalid as (_ & _ & Hlo & Hhi).
  pose proof (leb_trans _ _ _ Hlo Hhi) as Hle.
  apply leb_not_ltb in Hle. congruence.
Qed.

(** Nothing is within 10 to 1. *)
Lemma validateNumberRange_empty_range_example :
  validateNumberRange exampleDigits (JNumber 5) 10 1 None
  = Invalid (str "Number must be between 10 and 1")
  /\ validateNumberRange exampleDigits (JNumber 5) 10 1 None <> Valid 5%float.
Proof.
  split; [reflexivity|].
  apply (validateNumberRange_empty_range exampleDigits (JNumber 5) 10 1 None
           eq_refl).
Defined.

(** X7.  [validatePositiveInteger] returns [Valid] exactly on the numbers
    that denote an integer from 1 up, and returns the number unchanged. *)
Theorem validatePositiveInteger_valid_iff (value : JsValue) (x : float)
  (fieldName : option jsstring) :
  validatePositiveInteger value fieldName = Valid x
  <-> value = JNumber x
      /\ exists z, float_integer x = Some z /\ (1 <= z)%Z.
Proof.
  split.
  - destruct value; try discriminate. unfold validatePositiveInteger.
    unfold Number_isInteger.
    destruct (float_integer n) as [z|] eqn:Hz; [|discriminate].
    simpl negb. cbv iota.
    rewrite (leb_integers Hz float_integer_zero).
    destruct (Z.leb_spec z 0) as [Hle|Hgt]; [discriminate|].
    intros [= ->]. split; [reflexivity|]. exists z. split; [exact Hz|lia].
  - intros (-> & z & Hz & Hpos). unfold validatePositiveInteger.
    unfold Number_isInteger. rewrite Hz. simpl negb. cbv iota.
    rewrite (leb_integers Hz float_integer_zero).
    destruct (Z.leb_spec z 0) as [Hle|Hgt]; [lia|reflexivity].
Qed.

(** X8.  With bounds that are the safe integers [lo] and [hi], the message
    of [validateNumberRange] on a finite number outside them names both
    in decimal. *)
Theorem validateNumberRange_integer_bounds_message
  (shortestDigits : float -> jsstring) (x min max : float) (lo hi : Z)
  (fieldName : option jsstring) :
  float_integer min = Some lo -> (Z.abs lo <= 2 ^ 53)%Z ->
  float_integer max = Some hi -> (Z.abs hi <= 2 ^ 53)%Z ->
  Number_isFinite x = true ->
  (x <? min)%float = true \/ (max <? x)%float = true ->
  validateNumberRange shortestDigits (JNumber x) min max fieldName
  = Invalid (orDefault fieldName (str "Number") ++ str " must be between "
             ++ decimal lo ++ str " and " ++ decimal hi).
Proof.
  intros Hlo Hlo_safe Hhi Hhi_safe Hfin Hout. unfold validateNumberRange.
  rewrite Hfin. simpl negb. cbv iota.
  rewrite (Number_toString_integer _ Hlo Hlo_safe).
  rewrite (Number_toString_integer _ Hhi Hhi_safe).
  destruct Hout as [-> | ->]; [reflexivity|]. now rewrite orb_true_r.
Qed.

(** -3.5 against the range -2 to 7. *)
Lemma validateNumberRange_integer_bounds_message_example :
  validateNumberRange exampleDigits (JNumber (-3.5)) (-2) 7
    (Some (str "Offset"))
  = Invalid (str "Offset must be between -2 and 7").
Proof.
  apply (validateNumberRange_integer_bounds_message exampleDigits
           (-3.5) (-2) 7 (-2) 7 (Some (str "Offset")));
    try reflexivity; try discriminate.
  left; reflexivity.
Defined.

(** ** Trimming *)

Lemma trimStart_split (s : jsstring) :
  exists l, s = l ++ trimStart s
            /\ forallb isWhiteSpaceOrLineTerminator l = true.
Proof.
  induction s as [|c s (l & Hs & Hl)]; simpl.
  - now exists [].
  - destruct (isWhiteSpaceOrLineTerminator c) eqn:Hc.
    + exists (c :: l). simpl. rewrite Hc, Hl. split; [congruence|reflexivity].
    + now exists [].
Qed.

(** What [trimStart] returns does not start with a white space. *)
Lemma trimStart_head {s : jsstring} {c : code_unit} {t : jsstring} :
  trimStart s = c :: t -> isWhiteSpaceOrLineTerminator c = false.
Proof.
  induction s as [|d s IH]; simpl; [discriminate|].
  destruct (isWhiteSpaceOrLineTerminator d) eqn:Hd; [exact IH|].
  now intros [= <- <-].
Qed.

Lemma trimStart_fixed {c : code_unit} {t : jsstring} :
  isWhiteSpaceOrLineTerminator c = false -> trimStart (c :: t) = c :: t.
Proof. intros H. simpl. now rewrite H. Qed.

Lemma trimStart_snoc (u : jsstring) (c : code_unit) :
  isWhiteSpaceOrLineTerminator c = false ->
  trimStart (u ++ [c]) = trimStart u ++ [c].
Proof.
  intros Hc. induction u as [|d u IH]; simpl.
  - now rewrite Hc.
  - destruct (isWhiteSpaceOrLineTerminator d); [exact IH|reflexivity].
Qed.

Lemma trimStart_blank (s : jsstring) :
  trimStart s = [] <-> forallb isWhiteSpaceOrLineTerminator s = true.
Proof.
  induction s as [|c s IH]; simpl; [tauto|].
  destruct (isWhiteSpaceOrLineTerminator c); simpl; [exact IH|].
  split; discriminate.
Qed.

Lemma forallb_rev (A : Type) (p : A -> bool) (l : list A) :
  forallb p (rev l) = forallb p l.
Proof.
  induction l as [|x l IH]; simpl; [reflexivity|].
  rewrite forallb_app, IH. simpl. rewrite andb_true_r. apply andb_comm.
Qed.

Lemma trimEnd_cons (c : code_unit) (t : jsstring) :
  isWhiteSpaceOrLineTerminator c = false ->
  trimEnd (c :: t) = c :: trimEnd t.
Proof.
  intros Hc. unfold trimEnd. simpl rev.
  rewrite trimStart_snoc by exact Hc. rewrite rev_app_distr. reflexivity.
Qed.

(** [trim] cuts white space off both ends and nothing else. *)
Lemma trim_split (s : jsstring) :
  exists l r, s = l ++ trim s ++ r
              /\ forallb isWhiteSpaceOrLineTerminator l = true
              /\ forallb isWhiteSpaceOrLineTerminator r = true.
Proof.
  destruct (trimStart_split s) as (l & Hs & Hl).
  destruct (trimStart_split (rev (trimStart s))) as (r & Hr & Hrb).
  exists l, (rev r). unfold trim, trimEnd. split; [|split].
  - rewrite <- rev_app_distr, <- Hr, rev_involutive. exact Hs.
  - exact Hl.
  - now rewrite forallb_rev.
Qed.

(** What [trim] returns neither starts nor ends with a white space. *)
Lemma trim_ends (s : jsstring) :
  trim s <> [] ->
  isWhiteSpaceOrLineTerminator (hd 0%N (trim s)) = false
  /\ isWhiteSpaceOrLineTerminator (last (trim s) 0%N) = false.
Proof.
  unfold trim. intros Hne. split.
  - destruct (trimStart s) as [|c t] eqn:Hs; [now elim Hne|].
    pose proof (trimStart_head Hs) as Hc.
    rewrite trimEnd_cons by exact Hc. exact Hc.
  - unfold trimEnd in *.
    destruct (trimStart (rev (trimStart s))) as [|c t] eqn:Hr;
      [now elim Hne|].
    pose proof (trimStart_head Hr) as Hc.
    simpl rev. now rewrite last_last.
Qed.

Lemma trim_idempotent (s : jsstring) : trim (trim s) = trim s.
Proof.
  assert (Hstart : trimStart (trim s) = trim s).
  { unfold trim. destruct (trimStart s) as [|c t] eqn:Hs; [reflexivity|].
    pose proof (trimStart_head Hs) as Hc.
    rewrite trimEnd_cons by exact Hc. now apply trimStart_fixed. }
  unfold trim at 1. rewrite Hstart. unfold trim, trimEnd.
  rewrite rev_involutive.
  destruct (trimStart (rev (trimStart s))) as [|c t] eqn:Hr; [reflexivity|].
  now rewrite (trimStart_fixed (trimStart_head Hr)).
Qed.

Lemma trim_blank (s : jsstring) :
  trim s = [] <-> forallb isWhiteSpaceOrLineTerminator s = true.
Proof.
  split.
  - intros Hempty. destruct (trim_split s) as (l & r & Hs & Hl & Hr).
    rewrite Hs, Hempty, !forallb_app, Hl, Hr. reflexivity.
  - intros Hblank. apply trimStart_blank in Hblank.
    unfold trim. now rewrite Hblank.
Qed.

Lemma trim_length (s : jsstring) :
  (List.length (trim s) <= List.length s)%nat.
Proof.
  destruct (trim_split s) as (l & r & Hs & _).
  rewrite Hs at 2. rewrite !length_app. lia.
Qed.

Lemma String_length_empty (s : jsstring) :
  (String_length s =? 0)%float = false -> s <> [].
Proof. intros H ->. discriminate H. Qed.

Lemma validateNonEmpty_string (s : jsstring) (fieldName : option jsstring) :
  validateNonEmpty (JString s) fieldName
  = if (String_length (trim s) =? 0)%float
    then Invalid (orDefault fieldName (str "Field") ++ str " cannot be empty")
    else Valid (trim s).
Proof. reflexivity. Qed.

Lemma validateNonEmpty_valid_inv (value : JsValue)
  (fieldName : option jsstring) (kept : jsstring) :
  validateNonEmpty value fieldName = Valid kept ->
  exists s, value = JString s /\ kept = trim s /\ kept <> [].
Proof.
  destruct value; try discriminate. rewrite validateNonEmpty_string.
  destruct (String_length (trim s) =? 0)%float eqn:Hlen; [discriminate|].
  intros [= <-]. exists s. repeat split.
  now apply String_length_empty.
Qed.

(** ** Non-empty strings *)

(** X9.  What [validateNonEmpty] accepts it returns with the white space
    at both ends cut off and nothing else changed: the input is the value
    between two runs of white space, and the value is not empty and
    neither starts nor ends with a white space. *)
Theorem validateNonEmpty_valid_shape (value : JsValue)
  (fieldName : option jsstring) (kept : jsstring) :
  validateNonEmpty value fieldName = Valid kept ->
  (exists l r, value = JString (l ++ kept ++ r)
               /\ forallb isWhiteSpaceOrLineTerminator l = true
               /\ forallb isWhiteSpaceOrLineTerminator r = true)
  /\ kept <> []
  /\ isWhiteSpaceOrLineTerminator (hd 0%N kept) = false
  /\ isWhiteSpaceOrLineTerminator (last kept 0%N) = false.
Proof.
  intros H. apply validateNonEmpty_valid_inv in H.
  destruct H as (s & -> & -> & Hne).
  split; [|split; [exact Hne|now apply trim_ends]].
  destruct (trim_split s) as (l & r & Hs & Hl & Hr).
  exists l, r. split; [now rewrite <- Hs|]. now split.
Qed.

(** A tab, ["a b"] and a line feed. *)
Lemma validateNonEmpty_valid_shape_example :
  validateNonEmpty (JString ([9%N] ++ str "a b" ++ [10%N])) None
  = Valid (str "a b")
  /\ str "a b" <> [].
Proof.
  assert (H : validateNonEmpty (JString ([9%N] ++ str "a b" ++ [10%N])) None
              = Valid (str "a b")) by reflexivity.
  split; [exact H|].
  exact (proj1 (proj2 (validateNonEmpty_valid_shape _ None _ H))).
Defined.

Lemma validateNonEmpty_again (value : JsValue)
  (fieldName : option jsstring) (kept : jsstring) :
  validateNonEmpty value fieldName = Valid kept ->
  validateNonEmpty (JString kept) fieldName = Valid kept.
Proof.
  intros H. pose proof H as Hinv. apply validateNonEmpty_valid_inv in Hinv.
  destruct Hinv as (s & -> & -> & _).
  rewrite validateNonEmpty_string in *. rewrite trim_idempotent.
  destruct (String_length (trim s) =? 0)%float; [discriminate H|reflexivity].
Qed.

(** X10.  [validateNonEmpty] rejects a string as empty exactly when every
    code unit of it is a white space or a line terminator (the empty
    string among them), and otherwise returns it trimmed. *)
Theorem validateNonEmpty_blank_iff (s : jsstring)
  (fieldName : option jsstring) :
  (Z.of_nat (List.length s) < 2 ^ 53)%Z ->
  validateNonEmpty (JString s) fieldName
  = if forallb isWhiteSpaceOrLineTerminator s
    then Invalid (orDefault fieldName (str "Field") ++ str " cannot be empty")
    else Valid (trim s).
Proof.
  intros Hlen. rewrite validateNonEmpty_string.
  assert (Htrim : (Z.of_nat (List.length (trim s)) < 2 ^ 53)%Z).
  { pose proof (trim_length s). lia. }
  rewrite (eqb_integers (String_length_integer Htrim) float_integer_zero).
  destruct (forallb isWhiteSpaceOrLineTerminator s) eqn:Hblank.
  - apply trim_blank in Hblank. now rewrite Hblank.
  - destruct (Z.eqb_spec (Z.of_nat (List.length (trim s))) 0) as [H0|H0];
      [|reflexivity].
    assert (Hnil : trim s = []) by (apply length_zero_iff_nil; lia).
    apply trim_blank in Hnil. congruence.
Qed.

(** Three spaces are rejected; a no-break space and ["x"] gives ["x"]. *)
Lemma validateNonEmpty_blank_iff_example :
  validateNonEmpty (JString (str "   ")) None
  = Invalid (str "Field cannot be empty")
  /\ validateNonEmpty (JString (160%N :: str "x")) None = Valid (str "x").
Proof.
  split.
  - apply (validateNonEmpty_blank_iff (str "   ") None). reflexivity.
  - apply (validateNonEmpty_blank_iff (160%N :: str "x") None). reflexivity.
Defined.

(** ** Matching by derivatives *)

Lemma lang_never_inv (s : jsstring) : ~ lang RNever s.
Proof. intros H. inversion H. Qed.

Lemma lang_empty_inv (s : jsstring) : lang REmpty s -> s = [].
Proof. intros H. now inversion H. Qed.

Lemma lang_class_inv (p : code_unit -> bool) (s : jsstring) :
  lang (RClass p) s -> exists c, s = [c] /\ p c = true.
Proof. intros H. inversion H; subst. eauto. Qed.

Lemma lang_seq_inv (r1 r2 : regex) (s : jsstring) :
  lang (RSeq r1 r2) s ->
  exists s1 s2, s = s1 ++ s2 /\ lang r1 s1 /\ lang r2 s2.
Proof. intros H. inversion H; subst. eauto. Qed.

Lemma lang_alt_inv (r1 r2 : regex) (s : jsstring) :
  lang (RAlt r1 r2) s -> lang r1 s \/ lang r2 s.
Proof. intros H. inversion H; subst; auto. Qed.

Lemma lang_seq_cons (r1 r2 : regex) (c : code_unit) (s1 s2 : jsstring) :
  lang r1 (c :: s1) -> lang r2 s2 -> lang (RSeq r1 r2) (c :: s1 ++ s2).
Proof.
  intros H1 H2. change (c :: s1 ++ s2) with ((c :: s1) ++ s2).
  now constructor.
Qed.

Lemma nullable_lang (r : regex) : nullable r = true <-> lang r [].
Proof.
  induction r as [| |p|r1 IH1 r2 IH2|r1 IH1 r2 IH2|r IH]; simpl.
  - split; [discriminate|]. intros H. now apply lang_never_inv in H.
  - split; [constructor|reflexivity].
  - split; [discriminate|]. intros H. apply lang_class_inv in H.
    destruct H as (c & H & _). discriminate H.
  - rewrite andb_true_iff, IH1, IH2. split.
    + intros [H1 H2]. change (@nil code_unit) with (@nil code_unit ++ []).
      now constructor.
    + intros H. apply lang_seq_inv in H.
      destruct H as (s1 & s2 & Heq & H1 & H2). symmetry in Heq.
      apply app_eq_nil in Heq. destruct Heq as [-> ->]. now split.
  - rewrite orb_true_iff, IH1, IH2. split.
    + intros [H|H]; [now apply lang_alt_l|now apply lang_alt_r].
    + apply lang_alt_inv.
  - split; [constructor|reflexivity].
Qed.

(** A non-empty match of a star starts with a non-empty match of its
    body. *)
Lemma lang_star_cons_inv (r : regex) (c : code_unit) (s : jsstring) :
  lang (RStar r) (c :: s) ->
  exists s1 s2, s = s1 ++ s2 /\ lang r (c :: s1) /\ lang (RStar r) s2.
Proof.
  intros H. remember (RStar r) as r' eqn:Hr. remember (c :: s) as cs eqn:Hcs.
  revert s Hcs.
  induction H as [| | | | | |r0 s1 s2 H1 _ H2 IH2]; try discriminate Hr;
    intros s Hcs; [discriminate Hcs|].
  injection Hr as ->. destruct s1 as [|d s1].
  - simpl in Hcs. now apply IH2.
  - simpl in Hcs. injection Hcs as -> <-. now exists s1, s2.
Qed.

(** A match of a sequence that starts with [c]: [c] starts the match of
    the first part, or the first part matches the empty string. *)
Lemma lang_seq_cons_inv (r1 r2 : regex) (c : code_unit) (s : jsstring) :
  lang (RSeq r1 r2) (c :: s) ->
  (exists s1 s2, s = s1 ++ s2 /\ lang r1 (c :: s1) /\ lang r2 s2)
  \/ (lang r1 [] /\ lang r2 (c :: s)).
Proof.
  intros H. apply lang_seq_inv in H. destruct H as (s1 & s2 & Heq & H1 & H2).
  destruct s1 as [|d s1]; simpl in Heq.
  - subst s2. now right.
  - injection Heq as <- ->. left. now exists s1, s2.
Qed.

Lemma derive_lang (r : regex) : forall c s,
  lang (derive c r) s <-> lang r (c :: s).
Proof.
  induction r as [| |p|r1 IH1 r2 IH2|r1 IH1 r2 IH2|r IH]; intros c s; simpl.
  - split; intros H; now apply lang_never_inv in H.
  - split; intros H; [now apply lang_never_inv in H|].
    apply lang_empty_inv in H. discriminate H.
  - destruct (p c) eqn:Hp; split; intros H.
    + apply lang_empty_inv in H. subst s. now constructor.
    + apply lang_class_inv in H. destruct H as (d & [= -> ->] & _).
      constructor.
    + now apply lang_never_inv in H.
    + apply lang_class_inv in H. destruct H as (d & [= -> ->] & Hd).
      congruence.
  - destruct (nullable r1) eqn:Hnull.
    + split.
      * intros H. apply lang_alt_inv in H. destruct H as [H|H].
        -- apply lang_seq_inv in H. destruct H as (s1 & s2 & -> & H1 & H2).
           apply lang_seq_cons; [now apply IH1|assumption].
        -- change (c :: s) with ([] ++ c :: s). constructor.
           ++ now apply nullable_lang.
           ++ now apply IH2.
      * intros H. apply lang_seq_cons_inv in H.
        destruct H as [(s1 & s2 & -> & H1 & H2)|[_ H2]].
        -- apply lang_alt_l. constructor; [now apply IH1|assumption].
        -- apply lang_alt_r. now apply IH2.
    + split.
      * intros H. apply lang_seq_inv in H.
        destruct H as (s1 & s2 & -> & H1 & H2).
        apply lang_seq_cons; [now apply IH1|assumption].
      * intros H. apply lang_seq_cons_inv in H.
        destruct H as [(s1 & s2 & -> & H1 & H2)|[H1 _]].
        -- constructor; [now apply IH1|assumption].
        -- apply nullable_lang in H1. congruence.
  - split; intros H; apply lang_alt_inv in H; destruct H as [H|H].
    + apply lang_alt_l. now apply IH1.
    + apply lang_alt_r. now apply IH2.
    + apply lang_alt_l. now apply IH1.
    + apply lang_alt_r. now apply IH2.
  - split.
    + intros H. apply lang_seq_inv in H.
      destruct H as (s1 & s2 & -> & H1 & H2).
      change (c :: s1 ++ s2) with ((c :: s1) ++ s2).
      constructor; [now apply IH|assumption].
    + intros H. apply lang_star_cons_inv in H.
      destruct H as (s1 & s2 & -> & H1 & H2).
      constructor; [now apply IH|assumption].
Qed.

(** The matcher decides the language. *)
Lemma matches_lang (s : jsstring) : forall r,
  matches r s = true <-> lang r s.
Proof.
  induction s as [|c s IH]; intros r; simpl.
  - apply nullable_lang.
  - rewrite IH. apply derive_lang.
Qed.

(** Any number of code units of a class. *)
Lemma lang_star_class (p : code_unit -> bool) (s : jsstring) :
  lang (RStar (RClass p)) s <-> forallb p s = true.
Proof.
  split.
  - intros H. remember (RStar (RClass p)) as r eqn:Hr.
    induction H as [| | | | | |r0 s1 s2 H1 _ H2 IH2]; try discriminate Hr;
      [reflexivity|].
    injection Hr as ->. apply lang_class_inv in H1.
    destruct H1 as (c & -> & Hc). simpl.
    now rewrite Hc, IH2.
  - induction s as [|c s IH]; simpl; intros H; [constructor|].
    apply andb_true_iff in H. destruct H as [Hc Hs].
    change (c :: s) with ([c] ++ s).
    constructor; [now constructor|now apply IH].
Qed.

(** One or more code units of a class. *)
Lemma lang_plus_class (p : code_unit -> bool) (s : jsstring) :
  lang (RPlus (RClass p)) s <-> s <> [] /\ forallb p s = true.
Proof.
  unfold RPlus. split.
  - intros H. apply lang_seq_inv in H.
    destruct H as (s1 & s2 & -> & H1 & H2).
    apply lang_class_inv in H1. destruct H1 as (c & -> & Hc).
    apply lang_star_class in H2. simpl.
    split; [discriminate|]. now rewrite Hc, H2.
  - intros [Hne H]. destruct s as [|c s]; [now elim Hne|].
    simpl in H. apply andb_true_iff in H. destruct H as [Hc Hs].
    change (c :: s) with ([c] ++ s).
    constructor; [now constructor|now apply lang_star_class].
Qed.

Lemma lang_char (c : code_unit) (s : jsstring) :
  lang (RClass (N.eqb c)) s <-> s = [c].
Proof.
  split.
  - intros H. apply lang_class_inv in H. destruct H as (d & -> & Hd).
    apply N.eqb_eq in Hd. now subst.
  - intros ->. constructor. apply N.eqb_refl.
Qed.

(** ** Email addresses *)

(** What [emailPattern] accepts: a local part, ["@"], a domain, ["."] and
    a last part, the three parts not empty and free of white space and of
    ["@"]. *)
Lemma emailPattern_test (s : jsstring) :
  RegExp_test emailPattern s = true
  <-> exists local domain top,
        s = local ++ [char_at] ++ domain ++ [char_dot] ++ top
        /\ (local <> [] /\ forallb notSpaceNorAt local = true)
        /\ (domain <> [] /\ forallb notSpaceNorAt domain = true)
        /\ (top <> [] /\ forallb notSpaceNorAt top = true).
Proof.
  unfold emailPattern, RegExp_test. rewrite matches_lang. split.
  - intros H.
    apply lang_seq_inv in H. destruct H as (local & s1 & -> & Hlocal & H).
    apply lang_seq_inv in H. destruct H as (at1 & s2 & -> & Hat & H).
    apply lang_seq_inv in H. destruct H as (domain & s3 & -> & Hdomain & H).
    apply lang_seq_inv in H. destruct H as (dot1 & top & -> & Hdot & Htop).
    apply lang_char in Hat, Hdot. subst at1 dot1.
    apply lang_plus_class in Hlocal, Hdomain, Htop.
    now exists local, domain, top.
  - intros (local & domain & top & -> & Hlocal & Hdomain & Htop).
    repeat (constructor; [try (now apply lang_plus_class);
                          try (now apply lang_char)|]).
    now apply lang_plus_class.
Qed.

Lemma validateEmail_string (s : jsstring) (fieldName : option jsstring) :
  validateEmail (JString s) fieldName
  = if RegExp_test emailPattern s then Valid s
    else Invalid (orDefault fieldName (str "Email")
                  ++ str " must be a valid email address").
Proof.
  unfold validateEmail, validatePattern.
  now destruct (RegExp_test emailPattern s).
Qed.

(** X11.  [validateEmail] accepts exactly the strings of the form
    local part, ["@"], domain, ["."], last part, in which the three parts
    are not empty and hold neither white space nor ["@"]; it returns the
    string as it is. *)
Theorem validateEmail_valid_iff (value : JsValue)
  (fieldName : option jsstring) (kept : jsstring) :
  validateEmail value fieldName = Valid kept
  <-> value = JString kept
      /\ exists local domain top,
           kept = local ++ [char_at] ++ domain ++ [char_dot] ++ top
           /\ (local <> [] /\ forallb notSpaceNorAt local = true)
           /\ (domain <> [] /\ forallb notSpaceNorAt domain = true)
           /\ (top <> [] /\ forallb notSpaceNorAt top = true).
Proof.
  split.
  - destruct value; try discriminate. rewrite validateEmail_string.
    destruct (RegExp_test emailPattern s) eqn:Htest; [|discriminate].
    intros [= <-]. split; [reflexivity|]. now apply emailPattern_test.
  - intros [-> H]. apply emailPattern_test in H.
    now rewrite validateEmail_string, H.
Qed.

Lemma notSpaceNorAt_inv (c : code_unit) :
  notSpaceNorAt c = true ->
  isWhiteSpaceOrLineTerminator c = false /\ c <> char_at.
Proof.
  unfold notSpaceNorAt. intros H. apply negb_true_iff, orb_false_iff in H.
  destruct H as [Hws Hat]. split; [exact Hws|]. now apply N.eqb_neq.
Qed.

Lemma part_without_at (part : jsstring) :
  forallb notSpaceNorAt part = true ->
  count_occ N.eq_dec part char_at = 0%nat
  /\ existsb isWhiteSpaceOrLineTerminator part = false.
Proof.
  induction part as [|c part IH]; simpl; [now split|].
  intros H. apply andb_true_iff in H. destruct H as [Hc Hpart].
  destruct (notSpaceNorAt_inv _ Hc) as [Hws Hat].
  destruct (IH Hpart) as [Hcount Hnone].
  rewrite Hws, Hnone. destruct (N.eq_dec c char_at); [contradiction|].
  now split.
Qed.

(** X12.  A string [validateEmail] accepts holds exactly one ["@"], no
    white space and no line terminator, and at least five code units. *)
Theorem validateEmail_valid_one_at (value : JsValue)
  (fieldName : option jsstring) (kept : jsstring) :
  validateEmail value fieldName = Valid kept ->
  count_occ N.eq_dec kept char_at = 1%nat
  /\ existsb isWhiteSpaceOrLineTerminator kept = false
  /\ (5 <= List.length kept)%nat.
Proof.
  destruct value; try discriminate. rewrite validateEmail_string.
  destruct (RegExp_test emailPattern s) eqn:Htest; [|discriminate].
  intros [= <-]. apply emailPattern_test in Htest.
  destruct Htest as (local & domain & top & -> & [Hl1 Hl2] & [Hd1 Hd2]
                     & [Ht1 Ht2]).
  destruct (part_without_at _ Hl2) as [Hlc Hlw].
  destruct (part_without_at _ Hd2) as [Hdc Hdw].
  destruct (part_without_at _ Ht2) as [Htc Htw].
  unfold jsstring, code_unit in *. split; [|split].
  - rewrite !count_occ_app, Hlc, Hdc, Htc. reflexivity.
  - rewrite !existsb_app, Hlw, Hdw, Htw. reflexivity.
  - rewrite !length_app. simpl.
    destruct local; [now elim Hl1|]. destruct domain; [now elim Hd1|].
    destruct top; [now elim Ht1|]. simpl. lia.
Qed.

(** ["a@b.c"] has one ["@"]. *)
Lemma validateEmail_valid_one_at_example :
  validateEmail (JString (str "a@b.c")) None = Valid (str "a@b.c")
  /\ count_occ N.eq_dec (str "a@b.c") char_at = 1%nat.
Proof.
  assert (H : validateEmail (JString (str "a@b.c")) None
              = Valid (str "a@b.c")) by reflexivity.
  split; [exact H|].
  exact (proj1 (validateEmail_valid_one_at _ None _ H)).
Defined.

(** ** Options, and the value a validator returns *)

Lemma includes_In (options : list jsstring) (s : jsstring) :
  includes options s = true <-> In s options.
Proof.
  unfold includes. rewrite existsb_exists. split.
  - intros (o & Hin & Heq). apply jsstring_eqb_eq in Heq. now subst.
  - intros Hin. exists s. split; [exact Hin|apply jsstring_eqb_refl].
Qed.

(** X13.  [validateOneOf] returns [Valid] exactly on the strings that are
    among the options, and returns the string as it is. *)
Theorem validateOneOf_valid_iff (value : JsValue) (options : list jsstring)
  (fieldName : option jsstring) (kept : jsstring) :
  validateOneOf value options fieldName = Valid kept
  <-> value = JString kept /\ In kept options.
Proof.
  split.
  - destruct value; try discriminate. unfold validateOneOf.
    destruct (includes options s) eqn:Hin; [|discriminate].
    intros [= <-]. split; [reflexivity|]. now apply includes_In.
  - intros [-> Hin]. apply includes_In in Hin. unfold validateOneOf.
    now rewrite Hin.
Qed.

Lemma validatePattern_valid_inv (value : JsValue) (pattern : RegExp)
  (errorMessage kept : jsstring) :
  validatePattern value pattern errorMessage = Valid kept ->
  value = JString kept.
Proof.
  destruct value; try discriminate. unfold validatePattern.
  destruct (RegExp_test pattern s); [|discriminate]. now intros [= ->].
Qed.

Lemma validateMinLength_valid_inv (shortestDigits : float -> jsstring)
  (value : JsValue) (minLength : float) (fieldName : option jsstring)
  (kept : jsstring) :
  validateMinLength shortestDigits value minLength fieldName = Valid kept ->
  value = JString kept.
Proof.
  destruct value; try discriminate. rewrite validateMinLength_string.
  destruct (String_length s <? minLength)%float; [discriminate|].
  now intros [= ->].
Qed.

Lemma validateMaxLength_valid_inv (shortestDigits : float -> jsstring)
  (value : JsValue) (maxLength : float) (fieldName : option jsstring)
  (kept : jsstring) :
  validateMaxLength shortestDigits value maxLength fieldName = Valid kept ->
  value = JString kept.
Proof.
  destruct value; try discriminate. rewrite validateMaxLength_string.
  destruct (maxLength <? String_length s)%float; [discriminate|].
  now intros [= ->].
Qed.

Lemma validateLength_valid_inv (shortestDigits : float -> jsstring)
  (value : JsValue) (minLength maxLength : float)
  (fieldName : option jsstring) (kept : jsstring) :
  validateLength shortestDigits value minLength maxLength fieldName
  = Valid kept ->
  value = JString kept.
Proof.
  rewrite validateLength_refines. unfold minLengthThenMaxLength.
  destruct (validateMinLength shortestDigits value minLength fieldName)
    as [kept0|] eqn:Hmin; [|discriminate].
  apply validateMinLength_valid_inv in Hmin. subst value.
  apply validateMaxLength_valid_inv.
Qed.

Lemma validateUrl_string (URL_new : jsstring -> Completion JsValue)
  (s : jsstring) (fieldName : option jsstring) :
  validateUrl URL_new (JString s) fieldName
  = match URL_new s with
    | Normal _ => Normal (Valid s)
    | Throw _ =>
        Normal (Invalid (orDefault fieldName (str "URL")
                         ++ str " must be a valid URL"))
    end.
Proof. unfold validateUrl. now destruct (URL_new s). Qed.

(** X14.  Apart from [validateNonEmpty], which trims, a string validator
    that returns [Valid] returns the very string it was given:
    [validatePattern], [validateMinLength], [validateMaxLength],
    [validateLength], [validateEmail], [validateOneOf] and [validateUrl]
    normalise nothing. *)
Theorem string_validators_return_input (shortestDigits : float -> jsstring)
  (URL_new : jsstring -> Completion JsValue) (value : JsValue)
  (kept : jsstring) :
  (forall pattern errorMessage,
      validatePattern value pattern errorMessage = Valid kept ->
      value = JString kept)
  /\ (forall minLength fieldName,
      validateMinLength shortestDigits value minLength fieldName = Valid kept ->
      value = JString kept)
  /\ (forall maxLength fieldName,
      validateMaxLength shortestDigits value maxLength fieldName = Valid kept ->
      value = JString kept)
  /\ (forall minLength maxLength fieldName,
      validateLength shortestDigits value minLength maxLength fieldName
      = Valid kept ->
      value = JString kept)
  /\ (forall fieldName,
      validateEmail value fieldName = Valid kept -> value = JString kept)
  /\ (forall options fieldName,
      validateOneOf value options fieldName = Valid kept ->
      value = JString kept)
  /\ (forall fieldName,
      validateUrl URL_new value fieldName = Normal (Valid kept) ->
      value = JString kept).
Proof.
  split; [|split; [|split; [|split; [|split; [|split]]]]].
  - intros pattern errorMessage. apply validatePattern_valid_inv.
  - intros minLength fieldName. apply validateMinLength_valid_inv.
  - intros maxLength fieldName. apply validateMaxLength_valid_inv.
  - intros minLength maxLength fieldName. apply validateLength_valid_inv.
  - intros fieldName. apply validatePattern_valid_inv.
  - intros options fieldName. destruct value; try discriminate.
    unfold validateOneOf. destruct (includes options s); [|discriminate].
    now intros [= ->].
  - intros fieldName. destruct value; try discriminate.
    rewrite validateUrl_string. destruct (URL_new s); [|discriminate].
    now intros [= ->].
Qed.

(** A string with spaces at both ends passes the length range 3 to 10 and
    comes back with its spaces. *)
Lemma string_validators_return_input_example :
  validateLength exampleDigits (JString (str " hi ")) 3 10 None
  = Valid (str " hi ")
  /\ JString (str " hi ") = JString (str " hi ").
Proof.
  assert (H : validateLength exampleDigits (JString (str " hi ")) 3 10 None
              = Valid (str " hi ")) by reflexivity.
  split; [exact H|].
  exact (proj1 (proj2 (proj2 (proj2
           (string_validators_return_input exampleDigits exampleURL
              (JString (str " hi ")) (str " hi ")))))
           3%float 10%float None H).
Defined.

(** ** URLs, whatever the host does *)

(** X15.  [validateUrl] completes normally on every input, whatever the
    host's [new URL] returns or throws; it returns [Valid] exactly on the
    strings the host's [new URL] accepts. *)
Theorem validateUrl_never_throws (URL_new : jsstring -> Completion JsValue)
  (value : JsValue) (fieldName : option jsstring) :
  (exists result, validateUrl URL_new value fieldName = Normal result)
  /\ (forall kept,
      validateUrl URL_new value fieldName = Normal (Valid kept)
      <-> value = JString kept /\ exists url, URL_new kept = Normal url).
Proof.
  split.
  - destruct value; try (eexists; reflexivity).
    rewrite validateUrl_string. destruct (URL_new s); eexists; reflexivity.
  - intros kept. split.
    + destruct value; try discriminate. rewrite validateUrl_string.
      destruct (URL_new s) as [url|exn] eqn:Hurl; [|discriminate].
      intros [= <-]. split; [reflexivity|]. now exists url.
    + intros (-> & url & Hurl). now rewrite validateUrl_string, Hurl.
Qed.

(** ** Every outcome of the sequencer *)

Lemma list_snoc {A : Type} (l : list A) :
  l = [] \/ exists front x, l = front ++ [x].
Proof.
  destruct l as [|y rest]; [now left|right].
  destruct (@exists_last _ (y :: rest)) as (front & x & H); [discriminate|].
  now exists front, x.
Qed.

Section SequencerOutcomes.
Variable World : Type.
Implicit Types (validators pre post : list (Validator World)).
Implicit Types (f : Validator World) (value : JsValue) (w : World).

Lemma forOf_completed_inv validators : forall value w value' w',
  forOf validators value w = (Normal (Completed value'), w') ->
  thread validators value w = Some (value', w').
Proof.
  induction validators as [|f rest IH]; intros value w value' w' H.
  - injection H as <- <-. reflexivity.
  - simpl in H. unfold bind in H. simpl.
    destruct (f value w) as [[[v1|e]|exn] w1]; try discriminate H.
    now apply IH.
Qed.

(** The loop throws what one of the validators threw, called in its turn. *)
Lemma forOf_throw_inv validators : forall value w exn w',
  forOf validators value w = (Throw exn, w') ->
  exists pre f post value' w0,
    validators = pre ++ f :: post
    /\ thread pre value w = Some (value', w0)
    /\ f value' w0 = (Throw exn, w').
Proof.
  induction validators as [|f rest IH]; intros value w exn w' H.
  - discriminate H.
  - simpl in H. unfold bind in H.
    destruct (f value w) as [[[v1|e]|exn1] w1] eqn:Hf; try discriminate H.
    + apply IH in H.
      destruct H as (pre & g & post & value' & w0 & -> & Hth & Hg).
      exists (f :: pre), g, post, value', w0.
      simpl. rewrite Hf. auto.
    + injection H as <- <-. exists [], f, rest, value, w. auto.
Qed.

Lemma forOf_throw pre f post value w value' w0 exn w' :
  thread pre value w = Some (value', w0) ->
  f value' w0 = (Throw exn, w') ->
  forOf (pre ++ f :: post) value w = (Throw exn, w').
Proof.
  intros Hpre Hf. rewrite forOf_app with (1 := Hpre). simpl.
  unfold bind. now rewrite Hf.
Qed.

Lemma at_index_nil (A : Type) (i : Z) : at_index (@nil A) i = None.
Proof.
  unfold at_index. destruct (i <? 0)%Z; [reflexivity|].
  now destruct (Z.to_nat i).
Qed.

End SequencerOutcomes.

(** X16.  [validateAll] returns an [Invalid] result exactly when one of
    the validators returns it after all those before it, applied in order
    with each value handed on, returned [Valid]; the state is then the one
    that validator left. *)
Theorem validateAll_invalid_iff (World : Type)
  (validators : list (Validator World)) (value : JsValue) (w w' : World)
  (error : jsstring) :
  validateAll value validators w = (Normal (Invalid error), w')
  <-> exists pre f post value' w0,
        validators = pre ++ f :: post
        /\ thread pre value w = Some (value', w0)
        /\ f value' w0 = (Normal (Invalid error), w').
Proof.
  split.
  - apply validateAll_invalid_origin.
  - intros (pre & f & post & value' & w0 & -> & Hpre & Hf).
    unfold validateAll, bind at 1.
    rewrite forOf_app with (1 := Hpre). simpl forOf. unfold bind at 1.
    now rewrite Hf.
Qed.

(** X17.  [validateAll] returns a [Valid] result only when every validator
    returned [Valid] in its turn.  With no validators the value is the
    input; otherwise it is the value of the last validator's second call
    when that is [Valid], and the value the loop ended with when that
    second call is [Invalid]. *)
Theorem validateAll_valid_iff (World : Type)
  (validators : list (Validator World)) (value kept : JsValue)
  (w w' : World) :
  validateAll value validators w = (Normal (Valid kept), w')
  <-> exists value' w0,
        thread validators value w = Some (value', w0)
        /\ ((validators = [] /\ kept = value' /\ w' = w0)
            \/ exists pre f,
                 validators = pre ++ [f]
                 /\ (f value' w0 = (Normal (Valid kept), w')
                     \/ (kept = value'
                         /\ exists error,
                              f value' w0 = (Normal (Invalid error), w')))).
Proof.
  split.
  - intros H. unfold validateAll, bind at 1 in H.
    destruct (forOf validators value w) as [[[result|value1]|exn] w1]
      eqn:Hloop; try discriminate H.
    + unfold ret in H. injection H as -> ->.
      apply forOf_returned in Hloop.
      destruct Hloop as (? & ? & ? & ? & ? & e & _ & _ & _ & Hres).
      discriminate Hres.
    + apply forOf_completed_inv in Hloop. exists value1, w1.
      split; [exact Hloop|].
      destruct (list_snoc validators) as [-> | (pre & f & ->)].
      * left. injection Hloop as <- <-. injection H as <- <-. auto.
      * right. exists pre, f. split; [reflexivity|].
        rewrite at_index_last in H. unfold bind, ret in H.
        destruct (f value1 w1) as [[[again|e]|exn] w2]; try discriminate H.
        -- injection H as <- <-. now left.
        -- injection H as <- <-. right. split; [reflexivity|]. now exists e.
  - intros (value' & w0 & Hloop & [(-> & -> & ->) | (pre & f & -> & Hf)]).
    + injection Hloop as <- <-. reflexivity.
    + rewrite validateAll_completed with (1 := Hloop).
      destruct Hf as [Hf | (-> & error & Hf)]; now rewrite Hf.
Qed.

(** X18.  [validateAll] catches nothing: it throws exactly when a
    validator throws in its turn in the loop, or when every validator
    returned [Valid] and the last one throws on its second call; the
    exception and the state are the validator's. *)
Theorem validateAll_throws_iff (World : Type)
  (validators : list (Validator World)) (value exn : JsValue)
  (w w' : World) :
  validateAll value validators w = (Throw exn, w')
  <-> (exists pre f post value' w0,
         validators = pre ++ f :: post
         /\ thread pre value w = Some (value', w0)
         /\ f value' w0 = (Throw exn, w'))
      \/ (exists pre f value' w0,
            validators = pre ++ [f]
            /\ thread validators value w = Some (value', w0)
            /\ f value' w0 = (Throw exn, w')).
Proof.
  split.
  - intros H. unfold validateAll, bind at 1 in H.
    destruct (forOf validators value w) as [[[result|value1]|exn1] w1]
      eqn:Hloop.
    + discriminate H.
    + right. apply forOf_completed_inv in Hloop.
      destruct (list_snoc validators) as [-> | (pre & f & ->)].
      * discriminate H.
      * exists pre, f, value1, w1. split; [reflexivity|].
        split; [exact Hloop|].
        rewrite at_index_last in H. unfold bind, ret in H.
        destruct (f value1 w1) as [[[again|e]|exn2] w2]; try discriminate H.
        now injection H as <- <-.
    + left. injection H as <- <-.
      now apply forOf_throw_inv in Hloop.
  - intros [(pre & f & post & value' & w0 & -> & Hpre & Hf)
           | (pre & f & value' & w0 & -> & Hloop & Hf)].
    + unfold validateAll, bind at 1.
      now rewrite forOf_throw with (1 := Hpre) (2 := Hf).
    + rewrite validateAll_completed with (1 := Hloop). now rewrite Hf.
Qed.

(** A validator that throws stops the chain, and one that accepts once and
    throws when called again makes [validateAll] throw although every
    validator accepted the value. *)
Lemma validateAll_throws_examples :
  validateAll (JString (str "hi"))
    [recording 0 (fun v => validateNonEmpty v None);
     throwing (JString (str "boom"));
     recording 2 (fun v => validateNonEmpty v None)] []
  = (Throw (JString (str "boom")), [0])
  /\ validateAll (JString (str "hi")) [acceptOnce (JString (str "again"))]
       false
     = (Throw (JString (str "again")), true).
Proof.
  split.
  - apply (proj2 (validateAll_throws_iff (list nat) _ _ _ _ _)). left.
    exists [recording 0 (fun v => validateNonEmpty v None)],
      (throwing (JString (str "boom"))),
      [recording 2 (fun v => validateNonEmpty v None)],
      (JString (str "hi")), [0].
    repeat split.
  - apply (proj2 (validateAll_throws_iff bool _ _ _ _ _)). right.
    exists [], (acceptOnce (JString (str "again"))), (JString (str "hi")),
      true.
    repeat split.
Defined.

(** ** Pure validators *)

Section PureValidators.
Variable World : Type.
Implicit Types (fs : list (JsValue -> ValidationResult jsstring)).

Lemma forOf_pure fs : forall value (w : World),
  forOf (List.map pureValidator fs) value w
  = (Normal (match firstFailure fs value with
             | Valid value' => Completed value'
             | Invalid error => Returned (Invalid error)
             end), w).
Proof.
  induction fs as [|f rest IH]; intros value w; simpl; [reflexivity|].
  unfold bind, pureValidator at 1, ret at 1.
  destruct (f value) as [kept|error]; [apply IH|reflexivity].
Qed.

(** When a non-empty chain of pure validators accepts, its value is a
    string the last validator returned. *)
Lemma firstFailure_last fs f : forall value value',
  firstFailure (fs ++ [f]) value = Valid value' ->
  exists input kept, f input = Valid kept /\ value' = JString kept.
Proof.
  induction fs as [|g rest IH]; intros value value'; simpl.
  - destruct (f value) as [kept|error] eqn:Hf; [|discriminate].
    intros [= <-]. now exists value, kept.
  - destruct (g value) as [kept|error]; [apply IH|discriminate].
Qed.

End PureValidators.

(** X19.  On pure validators that accept their own output and return it
    as it is, [validateAll] is the plain fold: the first [Invalid]
    result, or [Valid] with the value the last validator returned; it
    does not throw and leaves the state as it was, so the second call of
    the last validator cannot be seen. *)
Theorem validateAll_pure_is_fold (World : Type)
  (fs : list (JsValue -> ValidationResult jsstring)) (value : JsValue)
  (w : World) :
  (forall f input kept,
      In f fs -> f input = Valid kept -> f (JString kept) = Valid kept) ->
  validateAll value (List.map pureValidator fs) w
  = (Normal (firstFailure fs value), w).
Proof.
  intros Hagain. unfold validateAll, bind at 1. rewrite forOf_pure.
  destruct (firstFailure fs value) as [value'|error] eqn:Hfold;
    [|reflexivity].
  destruct (list_snoc fs) as [-> | (pre & f & ->)].
  - injection Hfold as <-. reflexivity.
  - rewrite map_app. simpl List.map. rewrite at_index_last.
    apply firstFailure_last in Hfold.
    destruct Hfold as (input & kept & Hf & ->).
    unfold bind, pureValidator, ret.
    rewrite (Hagain f input kept); [reflexivity| |exact Hf].
    apply in_or_app. right. now left.
Qed.



(** [[nonEmpty, minLength(3)]] on a padded string: the trimmed value is
    what the chain returns. *)
Lemma validateAll_pure_is_fold_example :
  validateAll (JString (str "  hello "))
    (List.map pureValidator
       [fun v => validateNonEmpty v None;
        fun v => validateMinLength exampleDigits v 3 None]) tt
  = (Normal (Valid (JString (str "hello"))), tt).
Proof.
  apply (validateAll_pure_is_fold unit
           [fun v => validateNonEmpty v None;
            fun v => validateMinLength exampleDigits v 3 None]
           (JString (str "  hello ")) tt).
  intros f input kept [<- | [<- | []]] H.
  - now apply validateNonEmpty_again with (value := input).
  - now rewrite <- (validateMinLength_valid_inv _ _ _ _ _ H).
Defined.
